(** * insolation-diagram: a shallow embedding of the two plotting scripts

    The repository holds two Python scripts:

    - [src/plot_insolation.py]: a module-level pipeline that loads
      [orbital_param.csv], validates the header, converts ages from ka BP to
      yr b2k, filters, drops NaN rows, sorts, derives obliquity and the
      precession index, finds local extrema of the orbital parameters and
      draws them on the insolation curve;
    - [src/115-250/plot_correlation.py]: [main], which loads the same file,
      filters a 115..250 ka b2k window, and draws three scatter plots.

    Numbers are IEEE binary64 values (Rocq's primitive floats, which are
    Python's [float]); strings are sequences of Unicode code points (Python's
    [str]); the library calls whose code is not part of the repository
    (pandas' [to_numeric] and [sort_values], numpy's [sin] and [deg2rad],
    Python's set iteration order, matplotlib's rendering of a figure to the
    bytes of a file) are interfaces, each with reference instances.
    scipy's [argrelextrema] is written out, since the extrema claims are
    about what it returns.

    A run starts from the table [pd.read_csv] returned for the data file;
    it ends with an exception ([savefig] may raise one) or with the derived
    variables and the list of files [savefig] wrote, each with its name,
    the figure it was written from and its bytes.  The [print] calls and
    the styling of the axes are left out. *)

From Stdlib Require Import String Ascii.
From Stdlib Require Import List ZArith NArith Lia Bool.
From Stdlib Require Import Floats Sorted Permutation.
Import ListNotations.

(* ================================================================== *)
(** * Part I: definitions                                              *)
(* ================================================================== *)

(** ** Binary64 comparisons as Python writes them *)

Module F64.

(** [a > b] and [a >= b]; like every IEEE comparison they are [false] as
    soon as one side is NaN. *)
Definition gt (a b : float) : bool := PrimFloat.ltb b a.
Definition ge (a b : float) : bool := PrimFloat.leb b a.
Definition lt (a b : float) : bool := PrimFloat.ltb a b.
Definition le (a b : float) : bool := PrimFloat.leb a b.

(** The order [sort_values] sorts by: ascending, NaN keys last
    ([na_position="last"]). *)
Definition key_le (a b : float) : bool :=
  PrimFloat.is_nan b || (negb (PrimFloat.is_nan a) && PrimFloat.leb a b).

End F64.

(** ** Python [str]: a sequence of code points *)

Module PyStr.

Definition char := N.
Definition str := list char.

(** An ASCII literal of the source, as a [str]. *)
Definition lit (s : string) : str := map N_of_ascii (list_ascii_of_string s).

Definition BOM : char := 65279%N.    (* U+FEFF, byte order mark *)
Definition NBSP : char := 160%N.     (* U+00A0, no-break space *)
Definition SPACE : char := 32%N.     (* U+0020 *)

Definition char_eqb : char -> char -> bool := N.eqb.

Fixpoint eqb (a b : str) : bool :=
  match a, b with
  | [], [] => true
  | x :: a', y :: b' => char_eqb x y && eqb a' b'
  | _, _ => false
  end.

(** [c in labels] on a list or an Index of strings. *)
Definition mem (c : str) (l : list str) : bool := existsb (eqb c) l.

Definition between (lo hi c : N) : bool := (N.leb lo c && N.leb c hi)%bool.

(** [str.isspace] on one code point, the characters [str.strip()] removes:
    U+0009..U+000D, U+001C..U+0020, U+0085, U+00A0, U+1680,
    U+2000..U+200A, U+2028, U+2029, U+202F, U+205F, U+3000. *)
Definition isspace (c : char) : bool :=
  between 9 13 c || between 28 32 c || N.eqb c 133 || N.eqb c 160
  || N.eqb c 5760 || between 8192 8202 c || N.eqb c 8232 || N.eqb c 8233
  || N.eqb c 8239 || N.eqb c 8287 || N.eqb c 12288.

(** [s.replace(old, new)] for a one-character [old]: every occurrence is
    replaced, left to right. *)
Definition replace (old : char) (new : str) (s : str) : str :=
  flat_map (fun c => if char_eqb c old then new else [c]) s.

Fixpoint lstrip (s : str) : str :=
  match s with
  | [] => []
  | c :: t => if isspace c then lstrip t else s
  end.

Fixpoint rstrip (s : str) : str :=
  match s with
  | [] => []
  | c :: t =>
      match rstrip t with
      | [] => if isspace c then [] else [c]
      | t' => c :: t'
      end
  end.

(** [s.strip()] *)
Definition strip (s : str) : str := rstrip (lstrip s).

End PyStr.

Import PyStr.

(** ** Exceptions and the script monad *)

(** The exceptions a run can end with. *)
Inductive exn : Type :=
| ValueError_missing (missing found : list str)
    (* plot_insolation.py line 71: "Fehlende Spalten: ... Gefunden: ..." *)
| ValueError_order
    (* scipy: "Order must be an int >= 1" *)
| KeyError (label : str)
    (* pandas: df[c] for a label that is not a column *)
| TypeError_to_numeric
    (* pandas: to_numeric on a two-dimensional selection *)
| IndexError
    (* pandas: iloc with a position out of bounds *)
| SavefigError.
    (* matplotlib: what savefig raises when it cannot render or write the
       figure, e.g. ValueError "arange: cannot compute length" on an axis
       range that overflows *)

Definition result (A : Type) : Type := (exn + A)%type.

Definition raise {A : Type} (e : exn) : result A := inl e.
Definition ok {A : Type} (a : A) : result A := inr a.

Definition rbind {A B : Type} (m : result A) (k : A -> result B) : result B :=
  match m with
  | inl e => inl e
  | inr a => k a
  end.

Declare Scope result_scope.
Delimit Scope result_scope with result.
Notation "x <- m ;; k" := (rbind m (fun x => k))
  (at level 61, m at next level, right associativity) : result_scope.

(** What a figure holds when it is saved: the curves drawn with [plot] and
    the marker layers drawn with [scatter] (label, x data, y data, and the
    colour data [c=] where the call passes it). *)
Record Layer : Type := mkLayer {
  layer_label : str;
  layer_x : list float;
  layer_y : list float;
  layer_c : list float
}.

Record Figure : Type := mkFigure {
  fig_lines : list (list float * list float);
  fig_scatters : list Layer
}.

(** The bytes of a written file. *)
Definition bytes : Type := list N.

(** matplotlib's [savefig] within one run: the bytes it writes for a figure
    under a file name (the format follows the suffix), or [None] when it
    raises.  The bytes are not a function of the figure alone: the svg
    backend writes the current date and ids salted with a fresh uuid, so
    two runs are two instances. *)
Class Matplotlib : Type := {
  print_figure : str -> Figure -> option bytes
}.

(** One written file: its name, the figure [savefig] was called on, and the
    bytes written. *)
Record File : Type := mkFile {
  file_name : str;
  file_figure : Figure;
  file_bytes : bytes
}.

(** The files a run has written so far, oldest first. *)
Definition Files : Type := list File.

(** A script step: it may raise, and it may write files. *)
Definition Script (A : Type) : Type := Files -> result (A * Files).

Definition sret {A : Type} (a : A) : Script A := fun w => inr (a, w).

Definition sbind {A B : Type} (m : Script A) (k : A -> Script B) : Script B :=
  fun w =>
    match m w with
    | inl e => inl e
    | inr (a, w') => k a w'
    end.

Definition lift {A : Type} (m : result A) : Script A :=
  fun w =>
    match m with
    | inl e => inl e
    | inr a => inr (a, w)
    end.

(** [fig.savefig(name)]: one more file, unless matplotlib raises. *)
Definition savefig {MP : Matplotlib} (name : str) (fig : Figure)
  : Script unit :=
  fun w =>
    match print_figure name fig with
    | None => inl SavefigError
    | Some b => inr (tt, w ++ [mkFile name fig b])
    end.

Declare Scope script_scope.
Delimit Scope script_scope with script.
Notation "x <- m ;; k" := (sbind m (fun x => k))
  (at level 61, m at next level, right associativity) : script_scope.
Notation "m ;;; k" := (sbind m (fun _ => k))
  (at level 61, right associativity) : script_scope.

(** ** scipy.signal.argrelextrema (default [axis=0], [mode="clip"]) *)

Module SciPy.

(** numpy's [mode="clip"]: an index below 0 reads position 0, an index past
    the end reads the last position. *)
Definition clip (n : nat) (i : Z) : nat :=
  Z.to_nat (Z.max 0 (Z.min i (Z.of_nat n - 1))).

(** [data.take(i, mode="clip")] at one index. *)
Definition take_clip (data : list float) (i : Z) : float :=
  nth (clip (length data) i) data PrimFloat.nan.

(** [results.any()] *)
Definition any (results : list bool) : bool := existsb (fun b => b) results.

(** [locs = np.arange(0, datalen)] *)
Definition locs (data : list float) : list Z :=
  map Z.of_nat (seq 0 (length data)).

(** The body of [for shift in range(1, order + 1)]:
    [results &= comparator(main, plus); results &= comparator(main, minus)]
    with [main = data.take(locs)], [plus = data.take(locs + shift)] and
    [minus = data.take(locs - shift)]. *)
Definition step (comparator : float -> float -> bool) (data : list float)
    (shift : Z) (results : list bool) : list bool :=
  map (fun ir : Z * bool =>
         let (i, r) := ir in
         r && comparator (take_clip data i) (take_clip data (i + shift))
           && comparator (take_clip data i) (take_clip data (i - shift)))
      (combine (locs data) results).

(** The loop, with its early [return results] when nothing is left. *)
Fixpoint loop (comparator : float -> float -> bool) (data : list float)
    (shifts : list Z) (results : list bool) : list bool :=
  match shifts with
  | [] => results
  | shift :: rest =>
      let results' := step comparator data shift results in
      if negb (any results') then results'
      else loop comparator data rest results'
  end.

(** [range(1, order + 1)] *)
Definition shifts (order : Z) : list Z :=
  map Z.of_nat (seq 1 (Z.to_nat order)).

Definition boolrelextrema (comparator : float -> float -> bool)
    (data : list float) (order : Z) : result (list bool) :=
  if (order <? 1)%Z then raise ValueError_order
  else ok (loop comparator data (shifts order) (repeat true (length data))).

(** [np.nonzero(results)[0]]: the positions that hold [True], ascending. *)
Fixpoint nonzero_from (i : nat) (results : list bool) : list nat :=
  match results with
  | [] => []
  | b :: rest =>
      if b then i :: nonzero_from (S i) rest else nonzero_from (S i) rest
  end.

Definition nonzero (results : list bool) : list nat := nonzero_from 0 results.

Definition argrelextrema (data : list float)
    (comparator : float -> float -> bool) (order : Z) : result (list nat) :=
  (results <- boolrelextrema comparator data order ;;
   ok (nonzero results))%result.

End SciPy.

(** [get_extrema_idx(series, order)], plot_insolation.py lines 48-52;
    [np.greater(a, b)] is [a > b] and [np.less(a, b)] is [a < b]. *)
Definition get_extrema_idx (series : list float) (order : Z)
  : result (list nat * list nat) :=
  (let arr := series in
   max_idx <- SciPy.argrelextrema arr F64.gt order ;;
   min_idx <- SciPy.argrelextrema arr F64.lt order ;;
   ok (max_idx, min_idx))%result.

(** ** The library calls of the scripts, as interfaces *)

(** numpy's element functions. *)
Class NumPy : Type := {
  np_sin : float -> float;
  np_deg2rad : float -> float
}.

(** pandas: what a loaded cell is, [pd.to_numeric(..., errors="coerce")] on
    one cell (NaN where the cell is no number), and [sort_values] by one
    float key: some rearrangement of the rows with ascending keys, NaN keys
    last.  The default sort kind is not stable, so the order among equal
    keys is left open. *)
Class Pandas : Type := {
  cell : Type;
  to_numeric : cell -> float;
  sort_values : forall {A : Type}, (A -> float) -> list A -> list A;
  sort_values_perm :
    forall (A : Type) (key : A -> float) (l : list A),
      Permutation (sort_values key l) l;
  sort_values_sorted :
    forall (A : Type) (key : A -> float) (l : list A),
      Sorted (fun a b => F64.key_le (key a) (key b) = true) (sort_values key l)
}.

(** Python: the order in which a set of strings is iterated.  It follows the
    string hashes, which change from one interpreter start to the next. *)
Class Python : Type := {
  set_iter : list str -> list str;
  set_iter_nodup : forall l, NoDup (set_iter l);
  set_iter_in : forall l c, In c (set_iter l) <-> In c l
}.

(** ** Tables *)

Module Table.

(** A DataFrame as [read_csv] returns it: column labels, and a rectangle of
    cells ([cell_at i j] is row [i], column [j]). *)
Record Frame {PD : Pandas} : Type := mkFrame {
  columns : list str;
  nrows : nat;
  cell_at : nat -> nat -> cell
}.
Arguments mkFrame {PD} _ _ _.

(** One row of the five numeric columns the scripts use. *)
Record Row : Type := mkRow {
  Age : float;      (* ka BP *)
  ECC : float;
  OBL : float;
  OMEGA : float;
  EXI : float       (* insolation 65N July *)
}.

(** The positions of the columns labelled [c]. *)
Fixpoint positions_from (j : nat) (c : str) (cols : list str) : list nat :=
  match cols with
  | [] => []
  | c' :: rest =>
      if PyStr.eqb c c' then j :: positions_from (S j) c rest
      else positions_from (S j) c rest
  end.

Definition positions (c : str) (cols : list str) : list nat :=
  positions_from 0 c cols.

(** [pd.to_numeric(df[c], errors="coerce")]: [df[c]] raises [KeyError] when
    no column is labelled [c]; it is a Series when exactly one is, and a
    two-column (or wider) DataFrame when several are, which [to_numeric]
    refuses with [TypeError]. *)
Definition to_numeric_column {PD : Pandas} (df : Frame) (c : str)
  : result (list float) :=
  match positions c (columns df) with
  | [] => raise (KeyError c)
  | [j] => ok (map (fun i => to_numeric (cell_at df i j)) (seq 0 (nrows df)))
  | _ :: _ :: _ => raise TypeError_to_numeric
  end.

(** [for c in [col_age, col_ecc, col_obl, col_omega, col_insol]:
       df[c] = pd.to_numeric(df[c], errors="coerce")]
    and the five columns read back row by row. *)
Definition to_numeric_rows {PD : Pandas} (df : Frame)
    (col_age col_ecc col_obl col_omega col_insol : str) : result (list Row) :=
  (age <- to_numeric_column df col_age ;;
   ecc <- to_numeric_column df col_ecc ;;
   obl <- to_numeric_column df col_obl ;;
   omega <- to_numeric_column df col_omega ;;
   insol <- to_numeric_column df col_insol ;;
   ok (map (fun i => mkRow (nth i age PrimFloat.nan) (nth i ecc PrimFloat.nan)
                           (nth i obl PrimFloat.nan) (nth i omega PrimFloat.nan)
                           (nth i insol PrimFloat.nan))
           (seq 0 (nrows df))))%result.

(** [Series.max()]: NaN values are skipped; NaN when nothing is left. *)
Definition max2 (a b : float) : float := if F64.gt a b then a else b.

Definition series_max (s : list float) : float :=
  match filter (fun x => negb (PrimFloat.is_nan x)) s with
  | [] => PrimFloat.nan
  | v :: vs => fold_left max2 vs v
  end.

(** [obl = obl_raw / 1000.0 if obl_raw.max() > 100 else obl_raw]
    (the same line in both scripts). *)
Definition scale_obl (obl_raw : list float) : list float :=
  if F64.gt (series_max obl_raw) 100
  then map (fun x => PrimFloat.div x 1000) obl_raw
  else obl_raw.

(** Series arithmetic between two columns of one table: element by
    element. *)
Definition series_mul (a b : list float) : list float :=
  map (fun xy : float * float => PrimFloat.mul (fst xy) (snd xy)) (combine a b).

(** [s.iloc[idx]] with an array of positions: [IndexError] as soon as one
    is out of bounds. *)
Fixpoint iloc (s : list float) (idx : list nat) : result (list float) :=
  match idx with
  | [] => ok []
  | i :: rest =>
      match nth_error s i with
      | None => raise IndexError
      | Some v => (vs <- iloc s rest ;; ok (v :: vs))%result
      end
  end.

End Table.

Import Table.

(** ** src/plot_insolation.py *)

Module Insolation.

Definition csv_file : str := lit "orbital_param.csv".
Definition AGE_MIN_YR_B2K : float := 128000.
Definition AGE_MAX_YR_B2K : float := 220000.
Definition SHIFT_YEARS : float := 50.
Definition EXTREMA_ORDER : Z := 3.

(** [norm_col], lines 35-38. *)
Definition norm_col (x : option str) : str :=
  match x with
  | None => []
  | Some s => strip (replace NBSP [SPACE] (replace BOM [] s))
  end.

(** [robust_read_table], lines 41-45, on the table [read_csv] returned. *)
Definition robust_read_table {PD : Pandas} (read_csv : Frame) : Frame :=
  let df := read_csv in
  mkFrame (map (fun c => norm_col (Some c)) (columns df))
          (nrows df) (cell_at df).

Definition col_age : str := lit "Age".
Definition col_ecc : str := lit "ECC".
Definition col_obl : str := lit "OBL".
Definition col_omega : str := lit "OMEGA".
Definition col_insol : str := lit "EXI".

(** The five names of the set literal of line 68, in source order. *)
Definition needed_names : list str :=
  [col_age; col_ecc; col_obl; col_omega; col_insol].

(** A row once [df["Age_yr_b2k"]] is added. *)
Record Aged : Type := mkAged {
  base : Row;
  Age_yr_b2k : float
}.

(** Line 82: [df[col_age] * 1000.0 + SHIFT_YEARS]. *)
Definition to_yr_b2k (age_ka_bp : float) : float :=
  PrimFloat.add (PrimFloat.mul age_ka_bp 1000) SHIFT_YEARS.

Definition add_age_yr_b2k (rows : list Row) : list Aged :=
  map (fun r => mkAged r (to_yr_b2k (Age r))) rows.

(** Lines 85-87: the mask
    [(df["Age_yr_b2k"] >= AGE_MIN_YR_B2K) & (df["Age_yr_b2k"] <= AGE_MAX_YR_B2K)]. *)
Definition in_window (age_yr_b2k : float) : bool :=
  F64.ge age_yr_b2k AGE_MIN_YR_B2K && F64.le age_yr_b2k AGE_MAX_YR_B2K.

Definition filter_window (rows : list Aged) : list Aged :=
  filter (fun r => in_window (Age_yr_b2k r)) rows.

(** Line 88: [dropna(subset=["Age_yr_b2k", col_insol, col_ecc, col_obl, col_omega])]. *)
Definition has_na (r : Aged) : bool :=
  PrimFloat.is_nan (Age_yr_b2k r) || PrimFloat.is_nan (EXI (base r))
  || PrimFloat.is_nan (ECC (base r)) || PrimFloat.is_nan (OBL (base r))
  || PrimFloat.is_nan (OMEGA (base r)).

Definition dropna (rows : list Aged) : list Aged :=
  filter (fun r => negb (has_na r)) rows.

(** The module-level variables once line 109 has run. *)
Record Derived : Type := mkDerived {
  df : list Aged;
  age : list float;
  insol : list float;
  ecc : list float;
  obl : list float;
  prec_index : list float;
  ecc_max : list nat;
  ecc_min : list nat;
  obl_max : list nat;
  obl_min : list nat;
  prec_max : list nat;
  prec_min : list nat
}.

Section Script.
Context {NP : NumPy} {PD : Pandas} {PY : Python} {MP : Matplotlib}.

(** Line 68: [needed = {col_age, col_ecc, col_obl, col_omega, col_insol}],
    in the order the set is iterated. *)
Definition needed : list str := set_iter needed_names.

(** Line 69: [missing = [c for c in needed if c not in df.columns]]. *)
Definition missing (df : Frame) : list str :=
  filter (fun c => negb (mem c (columns df))) needed.

(** Lines 70-71. *)
Definition check_columns (df : Frame) : result unit :=
  match missing df with
  | [] => ok tt
  | m => raise (ValueError_missing m (columns df))
  end.

(** Lines 85-89. *)
Definition select (rows : list Aged) : list Aged :=
  sort_values Age_yr_b2k (dropna (filter_window rows)).

(** Lines 100-101. *)
Definition precession_index (ecc omega : list float) : list float :=
  let omega_rad := map np_deg2rad omega in
  series_mul ecc (map np_sin omega_rad).

(** Lines 58-109: load, check, convert, filter, sort, derive, extrema. *)
Definition transform (read_csv : Frame) : result Derived :=
  (let df := robust_read_table read_csv in
   _ <- check_columns df ;;
   rows <- to_numeric_rows df col_age col_ecc col_obl col_omega col_insol ;;
   let df := add_age_yr_b2k rows in
   let df := select df in
   let age := map Age_yr_b2k df in
   let insol := map (fun r => EXI (base r)) df in
   let ecc := map (fun r => ECC (base r)) df in
   let obl_raw := map (fun r => OBL (base r)) df in
   let obl := scale_obl obl_raw in
   let prec_index := precession_index ecc (map (fun r => OMEGA (base r)) df) in
   ecc_x <- get_extrema_idx ecc EXTREMA_ORDER ;;
   obl_x <- get_extrema_idx obl EXTREMA_ORDER ;;
   prec_x <- get_extrema_idx prec_index EXTREMA_ORDER ;;
   ok (mkDerived df age insol ecc obl prec_index
                 (fst ecc_x) (snd ecc_x) (fst obl_x) (snd obl_x)
                 (fst prec_x) (snd prec_x)))%result.

(** One [ax.scatter(insol.iloc[idx], age.iloc[idx], ..., label=...)]. *)
Definition scatter (d : Derived) (idx : list nat) (label : string)
  : result Layer :=
  (xs <- iloc (insol d) idx ;;
   ys <- iloc (age d) idx ;;
   ok (mkLayer (lit label) xs ys []))%result.

(** Lines 114-190: the curve and the six marker layers. *)
Definition draw (d : Derived) : result Figure :=
  (l1 <- scatter d (ecc_max d) "Ecc maxima" ;;
   l2 <- scatter d (ecc_min d) "Ecc minima" ;;
   l3 <- scatter d (obl_max d) "Obl maxima" ;;
   l4 <- scatter d (obl_min d) "Obl minima" ;;
   l5 <- scatter d (prec_max d) "Prec index maxima" ;;
   l6 <- scatter d (prec_min d) "Prec index minima" ;;
   ok (mkFigure [(insol d, age d)] [l1; l2; l3; l4; l5; l6]))%result.

Definition out_base : str := lit "insolation_vs_age_orbital_extrema".

(** Lines 221-225. *)
Definition export (fig : Figure) : Script unit :=
  (savefig (out_base ++ lit ".jpg") fig ;;;
   savefig (out_base ++ lit ".svg") fig)%script.

(** The whole script, on the table [read_csv] returned for [csv_file];
    it returns the derived variables. *)
Definition main (read_csv : Frame) : Script Derived :=
  (d <- lift (transform read_csv) ;;
   fig <- lift (draw d) ;;
   export fig ;;;
   sret d)%script.

End Script.

End Insolation.

(** ** src/115-250/plot_correlation.py *)

Module Correlation.

Definition DATA_FILE : str := lit "orbital_param.csv".
Definition AGE_MIN_B2K : float := 115.
Definition AGE_MAX_B2K : float := 250.
Definition SHIFT_YEARS : float := 50.
Definition SHIFT_KA : float := PrimFloat.div SHIFT_YEARS 1000.

(** [robust_read_table], lines 21-24: [df.columns.str.strip()]. *)
Definition robust_read_table {PD : Pandas} (read_csv : Frame) : Frame :=
  let df := read_csv in
  mkFrame (map strip (columns df)) (nrows df) (cell_at df).

(** [export_figure], lines 27-32. *)
Definition export_figure {MP : Matplotlib} (fig : Figure) (out_base : str)
  : Script unit :=
  (savefig (out_base ++ lit ".jpg") fig ;;;
   savefig (out_base ++ lit ".svg") fig)%script.

(** [scatter_plot], lines 35-87: one scatter layer coloured by age, then
    [export_figure(fig, out_base)]. *)
Definition scatter_plot {MP : Matplotlib} (x y age_b2k : list float)
    (out_base : string) : Script unit :=
  let fig := mkFigure [] [mkLayer [] x y age_b2k] in
  export_figure fig (lit out_base).

Definition col_age_bp : str := lit "Age".
Definition col_ecc : str := lit "ECC".
Definition col_obl : str := lit "OBL".
Definition col_omega : str := lit "OMEGA".
Definition col_insol : str := lit "EXI".

(** Lines 105-106. *)
Definition age_min_bp : float := PrimFloat.sub AGE_MIN_B2K SHIFT_KA.
Definition age_max_bp : float := PrimFloat.sub AGE_MAX_B2K SHIFT_KA.

(** Line 108: the mask
    [(df[col_age_bp] >= age_min_bp) & (df[col_age_bp] <= age_max_bp)]. *)
Definition in_window (age_ka_bp : float) : bool :=
  F64.ge age_ka_bp age_min_bp && F64.le age_ka_bp age_max_bp.

Definition filter_window (rows : list Row) : list Row :=
  filter (fun r => in_window (Age r)) rows.

(** Line 112: [sub[col_age_bp] + SHIFT_KA]. *)
Definition to_ka_b2k (age_ka_bp : float) : float :=
  PrimFloat.add age_ka_bp SHIFT_KA.

(** The local variables of [main] once line 123 has run. *)
Record Derived : Type := mkDerived {
  sub : list Row;
  age_b2k : list float;
  ecc : list float;
  insol : list float;
  obl : list float;
  prec_index : list float
}.

Section Script.
Context {NP : NumPy} {PD : Pandas} {MP : Matplotlib}.

(** Lines 108-109. *)
Definition select (rows : list Row) : list Row :=
  sort_values Age (filter_window rows).

(** Lines 122-123. *)
Definition precession_index (ecc omega : list float) : list float :=
  let omega_rad := map np_deg2rad omega in
  series_mul ecc (map np_sin omega_rad).

(** Lines 92-123. *)
Definition transform (read_csv : Frame) : result Derived :=
  (let df := robust_read_table read_csv in
   rows <- to_numeric_rows df col_age_bp col_ecc col_obl col_omega col_insol ;;
   let sub := select rows in
   let age_b2k := map (fun r => to_ka_b2k (Age r)) sub in
   let ecc := map ECC sub in
   let insol := map EXI sub in
   let obl_raw := map OBL sub in
   let obl := scale_obl obl_raw in
   let prec_index := precession_index ecc (map OMEGA sub) in
   ok (mkDerived sub age_b2k ecc insol obl prec_index))%result.

(** [main], lines 90-168; it returns its local variables. *)
Definition main (read_csv : Frame) : Script Derived :=
  (d <- lift (transform read_csv) ;;
   scatter_plot (ecc d) (insol d) (age_b2k d) "corr_insolation_vs_ecc" ;;;
   scatter_plot (obl d) (insol d) (age_b2k d) "corr_insolation_vs_obliquity" ;;;
   scatter_plot (prec_index d) (insol d) (age_b2k d)
                "corr_insolation_vs_precession_index" ;;;
   sret d)%script.

End Script.

End Correlation.

(** A run starts with no file written. *)
Definition run {A : Type} (script : Script A) : result (A * Files) := script [].

(** ** Notions used in the statements *)

(** How many columns are labelled [c]. *)
Definition occurrences (c : str) (cols : list str) : nat :=
  length (positions c cols).

(** The header holds the name of the derived column at most once: line 82
    then adds that column or replaces it.  Row selection by a mask on a
    repeated label is not modelled, so what the model says about a run that
    ends normally is meant for such headers. *)
Definition derived_label_once (cols : list str) : Prop :=
  occurrences (lit "Age_yr_b2k") cols <= 1.

(** [j] is another position at distance at most [order] from [i]. *)
Definition neighbour (order i j : nat) : Prop :=
  j <> i /\ i - j <= order /\ j - i <= order.

(** The value at position [i] compares (by [cmp]) against the value at every
    neighbour of [i] inside the array bounds. *)
Definition beats_neighbours (cmp : float -> float -> bool)
    (series : list float) (order i : nat) : Prop :=
  i < length series /\
  forall j, j < length series -> neighbour order i j ->
            cmp (nth i series PrimFloat.nan) (nth j series PrimFloat.nan) = true.

(** [i] is neither the first nor the last position. *)
Definition interior (series : list float) (i : nat) : Prop :=
  0 < i /\ S i < length series.

(** Two exceptions that differ at most in the order of the missing columns
    listed by the header check. *)
Definition same_up_to_order (e1 e2 : exn) : Prop :=
  match e1, e2 with
  | ValueError_missing m1 f1, ValueError_missing m2 f2 =>
      Permutation m1 m2 /\ f1 = f2
  | _, _ => e1 = e2
  end.

(** No key column of the row is NaN. *)
Definition complete (r : Insolation.Aged) : Prop :=
  PrimFloat.is_nan (Insolation.Age_yr_b2k r) = false /\
  PrimFloat.is_nan (EXI (Insolation.base r)) = false /\
  PrimFloat.is_nan (ECC (Insolation.base r)) = false /\
  PrimFloat.is_nan (OBL (Insolation.base r)) = false /\
  PrimFloat.is_nan (OMEGA (Insolation.base r)) = false.

(** What a run of the correlation script reads and writes. *)

Module CorrelationOutput.
Import Correlation.

(** The five names of lines 95-99, in the order of the loop of line 101. *)
Definition column_names : list str :=
  [col_age_bp; col_ecc; col_obl; col_omega; col_insol].

(** The figure of one [scatter_plot] call. *)
Definition figure_of (x y age_b2k : list float) : Figure :=
  mkFigure [] [mkLayer [] x y age_b2k].

(** The three figures of a run and the two names each is saved under, in
    the order of the [savefig] calls. *)
Definition figures_of (d : Derived) : list (str * Figure) :=
  [ (lit "corr_insolation_vs_ecc.jpg", figure_of (ecc d) (insol d) (age_b2k d));
    (lit "corr_insolation_vs_ecc.svg", figure_of (ecc d) (insol d) (age_b2k d));
    (lit "corr_insolation_vs_obliquity.jpg",
     figure_of (obl d) (insol d) (age_b2k d));
    (lit "corr_insolation_vs_obliquity.svg",
     figure_of (obl d) (insol d) (age_b2k d));
    (lit "corr_insolation_vs_precession_index.jpg",
     figure_of (prec_index d) (insol d) (age_b2k d));
    (lit "corr_insolation_vs_precession_index.svg",
     figure_of (prec_index d) (insol d) (age_b2k d)) ].

End CorrelationOutput.

(** The two [savefig] calls of the insolation script on its figure. *)
Definition saved_as (fig : Figure) : list (str * Figure) :=
  [ (Insolation.out_base ++ lit ".jpg", fig);
    (Insolation.out_base ++ lit ".svg", fig) ].

(** What a sequence of [savefig] calls writes: the files, in order, or
    [None] when one of the calls raises. *)
Fixpoint rendered {MP : Matplotlib} (calls : list (str * Figure))
  : option Files :=
  match calls with
  | [] => Some []
  | (name, fig) :: rest =>
      match print_figure name fig with
      | None => None
      | Some b =>
          match rendered rest with
          | None => None
          | Some files => Some (mkFile name fig b :: files)
          end
      end
  end.

(** ** Reference implementations of the interfaces *)

Module Reference.

(** Insertion sort by [key], ascending, NaN keys last; equal keys keep
    their order. *)
Fixpoint insert {A : Type} (key : A -> float) (x : A) (l : list A) : list A :=
  match l with
  | [] => [x]
  | y :: t =>
      if F64.key_le (key x) (key y) then x :: l else y :: insert key x t
  end.

Fixpoint insertion_sort {A : Type} (key : A -> float) (l : list A) : list A :=
  match l with
  | [] => []
  | x :: t => insert key x (insertion_sort key t)
  end.

(** Set iteration in first-occurrence order, and in the opposite order. *)
Definition str_eq_dec : forall a b : str, {a = b} + {a <> b} :=
  list_eq_dec N.eq_dec.

Definition iter_forward (l : list str) : list str := nodup str_eq_dec l.
Definition iter_backward (l : list str) : list str := rev (nodup str_eq_dec l).

(** [x * (pi / 180)] with the binary64 value of [pi / 180]. *)
Definition deg2rad (x : float) : float :=
  PrimFloat.mul x 0x1.1df46a2529d39p-6.

(** The sine polynomial [x - x^3/6 + x^5/120]: a stand-in for libm's
    [sin], which has no counterpart here. *)
Definition sin_poly (x : float) : float :=
  let x2 := PrimFloat.mul x x in
  PrimFloat.mul x
    (PrimFloat.sub 1
       (PrimFloat.mul (PrimFloat.div x2 6)
          (PrimFloat.sub 1 (PrimFloat.div x2 20)))).

(** A stand-in for matplotlib's writers: the file name, the number of
    points of each curve and layer and, in an svg file, the date of the
    run. *)
Definition is_svg (name : str) : bool :=
  PyStr.eqb (skipn (length name - 4) name) (lit ".svg").

Definition outline (fig : Figure) : bytes :=
  map (fun l => N.of_nat (length (fst l))) (fig_lines fig)
  ++ map (fun l => N.of_nat (length (layer_x l))) (fig_scatters fig).

Definition write_at (date : N) (name : str) (fig : Figure) : option bytes :=
  Some (name ++ (if is_svg name then [date] else []) ++ outline fig).

(** A loaded table from its header and its rows of numbers; a cell outside
    the rectangle reads NaN. *)
Definition cell_of (rows : list (list float)) (i j : nat) : float :=
  nth j (nth i rows []) PrimFloat.nan.

End Reference.

(* ================================================================== *)
(** * Part II: lemmas and theorems                                     *)
(* ================================================================== *)

(** ** The order of binary64 values *)

Module F64Facts.

Lemma SFcompare_None (x y : spec_float) :
  SFcompare x y = None <-> x = S754_nan \/ y = S754_nan.
Proof.
  destruct x, y; simpl; split; intros H; try discriminate; auto;
    destruct H; discriminate.
Qed.

Lemma SFcompare_refl (x : spec_float) :
  x <> S754_nan -> SFcompare x x = Some Eq.
Proof.
  destruct x as [s|s| |s m e]; simpl; intros H; try congruence.
  - destruct s; reflexivity.
  - change (Pos.compare_cont Eq) with Pos.compare.
    rewrite Z.compare_refl, Pos.compare_refl. destruct s; reflexivity.
Qed.

Lemma SFcompare_antisym (x y : spec_float) (c : comparison) :
  SFcompare x y = Some c -> SFcompare y x = Some (CompOpp c).
Proof.
  destruct x as [sx|sx| |sx mx ex], y as [sy|sy| |sy my ey]; simpl;
    try discriminate;
    try (destruct sx); try (destruct sy); simpl;
    intros [= <-]; try reflexivity.
  all: change (Pos.compare_cont Eq) with Pos.compare.
  all: rewrite (Z.compare_antisym ex ey), (Pos.compare_antisym mx my).
  all: destruct (ex ?= ey)%Z, (mx ?= my)%positive; reflexivity.
Qed.

Ltac close_cmp :=
  eexists; split;
  [ reflexivity | split; [ discriminate | intros [?|?]; congruence ] ].

(** [<=] chains, and the result is [<] as soon as one link is. *)
Lemma SFcompare_trans (x y z : spec_float) (c1 c2 : comparison) :
  SFcompare x y = Some c1 -> SFcompare y z = Some c2 ->
  c1 <> Gt -> c2 <> Gt ->
  exists c3, SFcompare x z = Some c3 /\ c3 <> Gt /\
             (c1 = Lt \/ c2 = Lt -> c3 = Lt).
Proof.
  destruct x as [sx|sx| |sx mx ex], y as [sy|sy| |sy my ey],
           z as [sz|sz| |sz mz ez]; simpl; try discriminate;
    try (destruct sx); try (destruct sy); try (destruct sz); simpl;
    intros [= <-] [= <-] H1 H2; try congruence; try close_cmp.
  all: change (Pos.compare_cont Eq) with Pos.compare in *.
  all: destruct (Z.compare_spec ex ey), (Z.compare_spec ey ez),
         (Z.compare_spec ex ez);
    try lia; try congruence; subst; try close_cmp.
  all: destruct (Pos.compare_spec mx my), (Pos.compare_spec my mz),
         (Pos.compare_spec mx mz);
    simpl in *; try lia; try congruence; subst; try close_cmp.
Qed.

Lemma is_nan_spec (x : float) :
  PrimFloat.is_nan x = true <-> Prim2SF x = S754_nan.
Proof.
  unfold PrimFloat.is_nan. rewrite eqb_spec. unfold SFeqb.
  split.
  - intros H.
    destruct (Prim2SF x) eqn:E; try reflexivity;
      rewrite SFcompare_refl in H by discriminate; discriminate.
  - intros ->. reflexivity.
Qed.

Lemma is_nan_false (x : float) :
  PrimFloat.is_nan x = false <-> Prim2SF x <> S754_nan.
Proof.
  rewrite <- is_nan_spec. destruct (PrimFloat.is_nan x); split; congruence.
Qed.

(** Two values that are not NaN compare. *)
Lemma compare_Some (a b : float) :
  PrimFloat.is_nan a = false -> PrimFloat.is_nan b = false ->
  exists c, SFcompare (Prim2SF a) (Prim2SF b) = Some c.
Proof.
  rewrite !is_nan_false. intros Ha Hb.
  destruct (SFcompare (Prim2SF a) (Prim2SF b)) eqn:E; eauto.
  apply SFcompare_None in E. tauto.
Qed.

Lemma leb_not_nan (a b : float) :
  PrimFloat.leb a b = true ->
  PrimFloat.is_nan a = false /\ PrimFloat.is_nan b = false.
Proof.
  rewrite leb_spec, !is_nan_false. unfold SFleb.
  destruct (SFcompare (Prim2SF a) (Prim2SF b)) eqn:E; try discriminate.
  intros _. split; intros N; rewrite N in E; simpl in E;
    try discriminate.
  destruct (Prim2SF a); discriminate.
Qed.

Lemma ltb_not_nan (a b : float) :
  PrimFloat.ltb a b = true ->
  PrimFloat.is_nan a = false /\ PrimFloat.is_nan b = false.
Proof.
  rewrite ltb_spec, !is_nan_false. unfold SFltb.
  destruct (SFcompare (Prim2SF a) (Prim2SF b)) eqn:E; try discriminate.
  intros _. split; intros N; rewrite N in E; simpl in E;
    try discriminate.
  destruct (Prim2SF a); discriminate.
Qed.

Lemma ltb_irrefl (a : float) : PrimFloat.ltb a a = false.
Proof.
  rewrite ltb_spec. unfold SFltb.
  destruct (SFcompare (Prim2SF a) (Prim2SF a)) as [c|] eqn:E; [|reflexivity].
  pose proof (SFcompare_antisym _ _ _ E) as E'. rewrite E in E'.
  destruct c; try discriminate; reflexivity.
Qed.

Lemma ltb_leb (a b : float) :
  PrimFloat.ltb a b = true -> PrimFloat.leb a b = true.
Proof.
  rewrite ltb_spec, leb_spec. unfold SFltb, SFleb.
  destruct (SFcompare (Prim2SF a) (Prim2SF b)) as [[]|]; congruence.
Qed.

(** Away from NaN, [a < b] fails exactly when [b <= a]. *)
Lemma ltb_false_leb (a b : float) :
  PrimFloat.is_nan a = false -> PrimFloat.is_nan b = false ->
  PrimFloat.ltb a b = false -> PrimFloat.leb b a = true.
Proof.
  intros Ha Hb. destruct (compare_Some a b Ha Hb) as [c E].
  rewrite ltb_spec, leb_spec. unfold SFltb, SFleb.
  rewrite E, (SFcompare_antisym _ _ _ E). destruct c; simpl; congruence.
Qed.

Lemma leb_total (a b : float) :
  PrimFloat.is_nan a = false -> PrimFloat.is_nan b = false ->
  PrimFloat.leb a b = true \/ PrimFloat.leb b a = true.
Proof.
  intros Ha Hb. destruct (compare_Some a b Ha Hb) as [c E].
  rewrite !leb_spec. unfold SFleb.
  rewrite E, (SFcompare_antisym _ _ _ E). destruct c; simpl; auto.
Qed.

Lemma leb_trans (a b c : float) :
  PrimFloat.leb a b = true -> PrimFloat.leb b c = true ->
  PrimFloat.leb a c = true.
Proof.
  rewrite !leb_spec. unfold SFleb.
  destruct (SFcompare (Prim2SF a) (Prim2SF b)) as [c1|] eqn:E1;
    [|discriminate].
  destruct (SFcompare (Prim2SF b) (Prim2SF c)) as [c2|] eqn:E2;
    [|destruct c1; discriminate].
  intros H1 H2.
  destruct (SFcompare_trans _ _ _ c1 c2 E1 E2) as (c3 & -> & N & _).
  - destruct c1; congruence.
  - destruct c2; congruence.
  - destruct c3; congruence.
Qed.

Lemma ltb_leb_trans (a b c : float) :
  PrimFloat.ltb a b = true -> PrimFloat.leb b c = true ->
  PrimFloat.ltb a c = true.
Proof.
  rewrite !ltb_spec, leb_spec. unfold SFltb, SFleb.
  destruct (SFcompare (Prim2SF a) (Prim2SF b)) as [c1|] eqn:E1;
    [|discriminate].
  destruct (SFcompare (Prim2SF b) (Prim2SF c)) as [c2|] eqn:E2;
    [|destruct c1; discriminate].
  intros H1 H2.
  destruct (SFcompare_trans _ _ _ c1 c2 E1 E2) as (c3 & -> & _ & L).
  - destruct c1; congruence.
  - destruct c2; congruence.
  - rewrite L; [reflexivity|]. left. destruct c1; congruence.
Qed.

Lemma key_le_total (a b : float) :
  F64.key_le a b = true \/ F64.key_le b a = true.
Proof.
  unfold F64.key_le.
  destruct (PrimFloat.is_nan b) eqn:Hb; [left; reflexivity|].
  destruct (PrimFloat.is_nan a) eqn:Ha; [right; reflexivity|].
  simpl. apply leb_total; assumption.
Qed.

Lemma key_le_false (a b : float) :
  F64.key_le a b = false -> F64.key_le b a = true.
Proof.
  intros H. destruct (key_le_total a b); congruence.
Qed.

(** On keys that are not NaN the sort order is [<=]. *)
Lemma key_le_leb (a b : float) :
  PrimFloat.is_nan a = false -> PrimFloat.is_nan b = false ->
  F64.key_le a b = PrimFloat.leb a b.
Proof.
  unfold F64.key_le. intros -> ->. reflexivity.
Qed.

End F64Facts.

(** ** The reference implementations meet their interfaces *)

Module ReferenceFacts.
Import Reference.

Section Insertion.
Context {A : Type} (key : A -> float).

Let R (a b : A) : Prop := F64.key_le (key a) (key b) = true.

Lemma insert_perm (x : A) (l : list A) :
  Permutation (insert key x l) (x :: l).
Proof.
  induction l as [|y t IH]; simpl.
  - apply Permutation_refl.
  - destruct (F64.key_le (key x) (key y)).
    + apply Permutation_refl.
    + eapply perm_trans; [apply perm_skip, IH | apply perm_swap].
Qed.

Lemma insertion_sort_perm (l : list A) :
  Permutation (insertion_sort key l) l.
Proof.
  induction l as [|x t IH]; simpl.
  - apply perm_nil.
  - eapply perm_trans; [apply insert_perm | apply perm_skip, IH].
Qed.

Lemma insert_HdRel (y x : A) (t : list A) :
  R y x -> HdRel R y t -> HdRel R y (insert key x t).
Proof.
  intros Hyx Ht. destruct t as [|z t]; simpl.
  - constructor. exact Hyx.
  - destruct (F64.key_le (key x) (key z)).
    + constructor. exact Hyx.
    + constructor. inversion Ht; assumption.
Qed.

Lemma insert_sorted (x : A) (l : list A) :
  Sorted R l -> Sorted R (insert key x l).
Proof.
  induction l as [|y t IH]; simpl; intros Hs.
  - repeat constructor.
  - destruct (F64.key_le (key x) (key y)) eqn:E.
    + constructor; [exact Hs | constructor; exact E].
    + inversion Hs as [|? ? Hst Hhd]; subst.
      constructor; [apply IH; exact Hst|].
      apply insert_HdRel; [|exact Hhd].
      apply F64Facts.key_le_false. exact E.
Qed.

Lemma insertion_sort_sorted (l : list A) :
  Sorted R (insertion_sort key l).
Proof.
  induction l as [|x t IH]; simpl.
  - constructor.
  - apply insert_sorted. exact IH.
Qed.

End Insertion.

Lemma iter_forward_nodup (l : list str) : NoDup (iter_forward l).
Proof. apply NoDup_nodup. Qed.

Lemma iter_forward_in (l : list str) (c : str) :
  In c (iter_forward l) <-> In c l.
Proof. apply nodup_In. Qed.

Lemma iter_backward_nodup (l : list str) : NoDup (iter_backward l).
Proof. apply NoDup_rev, NoDup_nodup. Qed.

Lemma iter_backward_in (l : list str) (c : str) :
  In c (iter_backward l) <-> In c l.
Proof.
  unfold iter_backward. rewrite <- in_rev. apply nodup_In.
Qed.

End ReferenceFacts.

Definition numpy_reference : NumPy :=
  {| np_sin := Reference.sin_poly; np_deg2rad := Reference.deg2rad |}.

Definition pandas_reference : Pandas :=
  {| cell := float;
     to_numeric := fun x => x;
     sort_values := @Reference.insertion_sort;
     sort_values_perm := @ReferenceFacts.insertion_sort_perm;
     sort_values_sorted := @ReferenceFacts.insertion_sort_sorted |}.

Definition python_forward : Python :=
  {| set_iter := Reference.iter_forward;
     set_iter_nodup := ReferenceFacts.iter_forward_nodup;
     set_iter_in := ReferenceFacts.iter_forward_in |}.

(** matplotlib on a given day, and a matplotlib that cannot write. *)
Definition matplotlib_on (date : N) : Matplotlib :=
  {| print_figure := Reference.write_at date |}.

Definition matplotlib_reference : Matplotlib := matplotlib_on 20000.


Definition python_backward : Python :=
  {| set_iter := Reference.iter_backward;
     set_iter_nodup := ReferenceFacts.iter_backward_nodup;
     set_iter_in := ReferenceFacts.iter_backward_in |}.

(** A loaded table with the given header and rows of numbers. *)
Definition frame_of (header : list str) (rows : list (list float))
  : @Frame pandas_reference :=
  @mkFrame pandas_reference header (length rows) (Reference.cell_of rows).

(** ** Strings: [replace] and [strip] *)

Module PyStrFacts.

Lemma eqb_eq (a b : str) : PyStr.eqb a b = true <-> a = b.
Proof.
  revert b. induction a as [|x a IH]; intros [|y b]; simpl;
    try (split; [discriminate | congruence]).
  - split; reflexivity.
  - unfold char_eqb. rewrite andb_true_iff, N.eqb_eq, IH.
    split; [intros [-> ->]; reflexivity | intros [= -> ->]; auto].
Qed.

Lemma eqb_refl (a : str) : PyStr.eqb a a = true.
Proof. apply eqb_eq. reflexivity. Qed.

Lemma mem_In (c : str) (l : list str) : mem c l = true <-> In c l.
Proof.
  unfold mem. rewrite existsb_exists. split.
  - intros (x & Hx & E). apply eqb_eq in E. subst. exact Hx.
  - intros H. exists c. split; [exact H | apply eqb_refl].
Qed.

Lemma mem_false (c : str) (l : list str) : mem c l = false <-> ~ In c l.
Proof.
  rewrite <- mem_In. destruct (mem c l); split; congruence.
Qed.















End PyStrFacts.

(** ** Header normalization *)

Module NormColFacts.
Import PyStrFacts Insolation.

Lemma replace_as_filter (old : char) (s : str) :
  replace old [] s = filter (fun c => negb (N.eqb c old)) s.
Proof.
  unfold replace, char_eqb. induction s as [|c s IH]; simpl.
  - reflexivity.
  - destruct (N.eqb c old); simpl; rewrite IH; reflexivity.
Qed.

Lemma replace_as_map (old new : char) (s : str) :
  replace old [new] s = map (fun c => if N.eqb c old then new else c) s.
Proof.
  unfold replace, char_eqb. induction s as [|c s IH]; simpl.
  - reflexivity.
  - destruct (N.eqb c old); simpl; rewrite IH; reflexivity.
Qed.




End NormColFacts.

(** ** scipy's relative extrema *)

Module SciPyFacts.
Import SciPy.

(** The two comparisons of one pass of the loop at position [i]. *)
Definition pass (comparator : float -> float -> bool) (data : list float)
    (i : nat) (shift : Z) : bool :=
  comparator (take_clip data (Z.of_nat i)) (take_clip data (Z.of_nat i + shift))
  && comparator (take_clip data (Z.of_nat i)) (take_clip data (Z.of_nat i - shift)).

Lemma take_clip_inside (data : list float) (i : nat) :
  i < length data -> take_clip data (Z.of_nat i) = nth i data PrimFloat.nan.
Proof.
  intros H. unfold take_clip, clip. f_equal. lia.
Qed.

Lemma step_length (comparator : float -> float -> bool) (data : list float)
    (shift : Z) (results : list bool) :
  length results = length data ->
  length (step comparator data shift results) = length data.
Proof.
  intros H. unfold step, locs.
  rewrite length_map, length_combine, length_map, length_seq. lia.
Qed.

Lemma step_nth (comparator : float -> float -> bool) (data : list float)
    (shift : Z) (results : list bool) (i : nat) :
  length results = length data ->
  nth i (step comparator data shift results) false =
  nth i results false && pass comparator data i shift.
Proof.
  intros H. unfold step.
  match goal with |- nth _ (map ?g _) _ = _ => set (f := g) end.
  change false with (f (0%Z, false)) at 1.
  rewrite map_nth.
  rewrite combine_nth by (unfold locs; rewrite length_map, length_seq; lia).
  destruct (Nat.lt_ge_cases i (length data)) as [Hi|Hi].
  - unfold locs. change 0%Z with (Z.of_nat 0). rewrite map_nth.
    rewrite seq_nth by exact Hi. simpl. unfold pass.
    rewrite andb_assoc. reflexivity.
  - rewrite (nth_overflow results) by lia. reflexivity.
Qed.

Lemma any_false_nth (results : list bool) (i : nat) :
  any results = false -> nth i results false = false.
Proof.
  revert i. induction results as [|b t IH]; intros i H.
  - destruct i; reflexivity.
  - simpl in H. apply orb_false_iff in H. destruct H as [Hb Ht].
    destruct i; simpl; [exact Hb | apply IH; exact Ht].
Qed.

(** The loop computes, position by position, the conjunction of all passes;
    its early exit changes nothing. *)
Lemma loop_nth (comparator : float -> float -> bool) (data : list float)
    (shifts : list Z) (results : list bool) (i : nat) :
  length results = length data ->
  nth i (loop comparator data shifts results) false =
  nth i results false && forallb (pass comparator data i) shifts.
Proof.
  revert results. induction shifts as [|s rest IH]; intros results H; simpl.
  - rewrite andb_true_r. reflexivity.
  - pose proof (step_nth comparator data s results i H) as Hs.
    destruct (any (step comparator data s results)) eqn:E; simpl.
    + rewrite IH by (apply step_length; exact H).
      rewrite Hs, andb_assoc. reflexivity.
    + rewrite (any_false_nth _ i E) in Hs |- *.
      rewrite andb_assoc, <- Hs. reflexivity.
Qed.

Lemma nonzero_from_In (k : nat) (results : list bool) (i : nat) :
  In i (nonzero_from k results) <->
  k <= i /\ nth (i - k) results false = true.
Proof.
  revert k. induction results as [|b t IH]; intros k.
  - simpl. split; [tauto|]. intros [_ H]. destruct (i - k); discriminate.
  - assert (Hcons : In i (nonzero_from k (b :: t)) <->
                    (b = true /\ k = i) \/ In i (nonzero_from (S k) t)).
    { simpl. destruct b; simpl; split; intros H.
      - destruct H as [H|H]; [left; split; [reflexivity | exact H] | right; exact H].
      - destruct H as [[_ H]|H]; [left; exact H | right; exact H].
      - right. exact H.
      - destruct H as [[H _]|H]; [discriminate | exact H]. }
    rewrite Hcons, IH. clear Hcons IH.
    destruct (Nat.lt_trichotomy i k) as [Hlt|[Heq|Hgt]].
    + split; [intros [[_ H]|[H _]]; lia | intros [H _]; lia].
    + subst k. rewrite Nat.sub_diag. simpl. split.
      * intros [[H _]|[H _]]; [split; [lia | exact H] | lia].
      * intros [_ H]. left. split; [exact H | reflexivity].
    + replace (i - k) with (S (i - S k)) by lia. simpl. split.
      * intros [[_ H]|[_ H]]; [lia | split; [lia | exact H]].
      * intros [_ H]. right. split; [lia | exact H].
Qed.

Lemma nonzero_In (results : list bool) (i : nat) :
  In i (nonzero results) <-> nth i results false = true.
Proof.
  unfold nonzero. rewrite nonzero_from_In, Nat.sub_0_r.
  split; [tauto | intros H; split; [lia | exact H]].
Qed.

Lemma nth_repeat_true (n i : nat) :
  nth i (repeat true n) false = true <-> i < n.
Proof.
  revert i. induction n as [|n IH]; intros i; simpl.
  - destruct i; split; try discriminate; lia.
  - destruct i; [split; [lia | reflexivity]|].
    rewrite IH. lia.
Qed.

Lemma In_shifts (order : Z) (s : Z) :
  In s (shifts order) <-> (1 <= s <= order)%Z.
Proof.
  unfold shifts. rewrite in_map_iff. split.
  - intros (k & <- & Hk). apply in_seq in Hk. lia.
  - intros H. exists (Z.to_nat s). split; [lia|]. apply in_seq. lia.
Qed.

(** What [argrelextrema] returns, in terms of the clipped comparisons. *)
Lemma argrelextrema_In (comparator : float -> float -> bool)
    (data : list float) (order : Z) :
  (1 <= order)%Z ->
  exists idx,
    argrelextrema data comparator order = ok idx /\
    forall i, In i idx <->
              i < length data /\
              forall s, (1 <= s <= order)%Z -> pass comparator data i s = true.
Proof.
  intros Ho. unfold argrelextrema, boolrelextrema.
  destruct (Z.ltb_spec order 1) as [|_]; [lia|]. simpl.
  eexists. split; [reflexivity|]. intros i.
  rewrite nonzero_In, loop_nth by apply repeat_length.
  rewrite andb_true_iff, nth_repeat_true, forallb_forall.
  split; intros [Hi Hp]; (split; [exact Hi|]); intros s Hs;
    apply Hp; apply In_shifts; exact Hs.
Qed.

End SciPyFacts.

(** ** Local extrema *)

Module ExtremaFacts.
Import SciPy SciPyFacts.

Lemma gt_irrefl (x : float) : F64.gt x x = false.
Proof. apply F64Facts.ltb_irrefl. Qed.

Lemma lt_irrefl (x : float) : F64.lt x x = false.
Proof. apply F64Facts.ltb_irrefl. Qed.

(** With [mode="clip"] an end position is compared with itself, so a strict
    comparison fails there; everywhere else the clipped positions are
    neighbours inside the bounds. *)
Lemma pass_all_iff (cmp : float -> float -> bool) (data : list float)
    (order i : nat) :
  (forall x, cmp x x = false) -> 1 <= order -> i < length data ->
  (forall s, (1 <= s <= Z.of_nat order)%Z -> pass cmp data i s = true) <->
  interior data i /\ beats_neighbours cmp data order i.
Proof.
  intros Hirr Ho Hi. split.
  - intros H.
    assert (H1 : pass cmp data i 1 = true) by (apply H; lia).
    unfold pass in H1. apply andb_true_iff in H1. destruct H1 as [Hp Hm].
    assert (Hint : interior data i).
    { unfold interior. split.
      - destruct i as [|i]; [|lia]. exfalso.
        replace (take_clip data (Z.of_nat 0 - 1)) with
          (take_clip data (Z.of_nat 0)) in Hm
          by (unfold take_clip, clip; f_equal; lia).
        rewrite Hirr in Hm. discriminate.
      - destruct (Nat.eq_dec (S i) (length data)) as [E|]; [|lia]. exfalso.
        replace (take_clip data (Z.of_nat i + 1)) with
          (take_clip data (Z.of_nat i)) in Hp
          by (unfold take_clip, clip; f_equal; lia).
        rewrite Hirr in Hp. discriminate. }
    split; [exact Hint|]. split; [exact Hi|].
    intros j Hj (Hne & Hl & Hr).
    rewrite <- (take_clip_inside data i Hi), <- (take_clip_inside data j Hj).
    destruct (Nat.lt_ge_cases i j) as [Hij|Hij].
    + assert (Hs : pass cmp data i (Z.of_nat (j - i)) = true)
        by (apply H; lia).
      unfold pass in Hs. apply andb_true_iff in Hs. destruct Hs as [Hs _].
      replace (Z.of_nat i + Z.of_nat (j - i))%Z with (Z.of_nat j) in Hs by lia.
      exact Hs.
    + assert (Hs : pass cmp data i (Z.of_nat (i - j)) = true)
        by (apply H; lia).
      unfold pass in Hs. apply andb_true_iff in Hs. destruct Hs as [_ Hs].
      replace (Z.of_nat i - Z.of_nat (i - j))%Z with (Z.of_nat j) in Hs by lia.
      exact Hs.
  - intros [[Hlo Hhi] [_ Hb]] s Hs. unfold pass.
    rewrite (take_clip_inside data i Hi). apply andb_true_iff. split.
    + unfold take_clip. apply Hb; unfold neighbour, clip; lia.
    + unfold take_clip. apply Hb; unfold neighbour, clip; lia.
Qed.

(** [get_extrema_idx] with a window of at least 1 returns; the maxima and
    minima are the interior positions that beat all their neighbours. *)
Lemma get_extrema_idx_In (series : list float) (order : nat) :
  1 <= order ->
  exists max_idx min_idx,
    get_extrema_idx series (Z.of_nat order) = ok (max_idx, min_idx) /\
    (forall i, In i max_idx <->
               interior series i /\ beats_neighbours F64.gt series order i) /\
    (forall i, In i min_idx <->
               interior series i /\ beats_neighbours F64.lt series order i).
Proof.
  intros Ho. unfold get_extrema_idx.
  destruct (argrelextrema_In F64.gt series (Z.of_nat order)) as (mx & -> & Hmx);
    [lia|].
  destruct (argrelextrema_In F64.lt series (Z.of_nat order)) as (mn & -> & Hmn);
    [lia|].
  simpl. exists mx, mn. split; [reflexivity|].
  split; intros i; [rewrite Hmx | rewrite Hmn]; split.
  - intros [Hi H]. apply (pass_all_iff F64.gt series order i gt_irrefl Ho Hi).
    exact H.
  - intros [Hint Hb]. pose proof (proj1 Hb) as Hi. split; [exact Hi|].
    apply (pass_all_iff F64.gt series order i gt_irrefl Ho Hi). tauto.
  - intros [Hi H]. apply (pass_all_iff F64.lt series order i lt_irrefl Ho Hi).
    exact H.
  - intros [Hint Hb]. pose proof (proj1 Hb) as Hi. split; [exact Hi|].
    apply (pass_all_iff F64.lt series order i lt_irrefl Ho Hi). tauto.
Qed.

End ExtremaFacts.

(** ** Monad laws used below *)

Lemma rbind_ok {A B : Type} (a : A) (k : A -> result B) :
  rbind (ok a) k = k a.
Proof. reflexivity. Qed.

Lemma rbind_raise {A B : Type} (e : exn) (k : A -> result B) :
  rbind (raise e) k = raise e.
Proof. reflexivity. Qed.

Lemma run_lift_ok {A B : Type} (a : A) (k : A -> Script B) :
  run (sbind (lift (ok a)) k) = run (k a).
Proof. reflexivity. Qed.

Lemma run_lift_raise {A B : Type} (e : exn) (k : A -> Script B) :
  run (sbind (lift (raise e)) k) = raise e.
Proof. reflexivity. Qed.

Ltac ok_step := rewrite ?rbind_ok, ?rbind_raise; cbv beta zeta.

(** ** Column lookup and numeric conversion *)

Module TableFacts.
Import PyStrFacts.

Lemma positions_from_nil (j : nat) (c : str) (cols : list str) :
  positions_from j c cols = [] <-> ~ In c cols.
Proof.
  revert j. induction cols as [|c' rest IH]; intros j; simpl.
  - tauto.
  - destruct (PyStr.eqb c c') eqn:E.
    + apply eqb_eq in E. subst. split; [discriminate | intros H; tauto].
    + rewrite IH. split.
      * intros H [H'|H']; [|tauto]. subst.
        rewrite eqb_refl in E. discriminate.
      * tauto.
Qed.

Lemma occurrences_zero (c : str) (cols : list str) :
  occurrences c cols = 0 <-> ~ In c cols.
Proof.
  unfold occurrences, positions. rewrite <- positions_from_nil with (j := 0).
  destruct (positions_from 0 c cols); simpl; split; congruence.
Qed.

Lemma occurrences_pos (c : str) (cols : list str) :
  1 <= occurrences c cols <-> In c cols.
Proof.
  pose proof (occurrences_zero c cols) as H.
  destruct (in_dec (list_eq_dec N.eq_dec) c cols) as [I|I].
  - split; [auto|]. intros _.
    destruct (occurrences c cols); [|lia]. exfalso. tauto.
  - split; [|tauto]. intros Hpos. apply H in I. lia.
Qed.

Section Lookup.
Context {PD : Pandas}.

(** The three outcomes of [pd.to_numeric(df[c], errors="coerce")]. *)
Lemma to_numeric_column_cases (df : Frame) (c : str) :
  (occurrences c (columns df) = 0 /\
   to_numeric_column df c = raise (KeyError c)) \/
  (occurrences c (columns df) = 1 /\
   exists col, to_numeric_column df c = ok col /\ length col = nrows df) \/
  (2 <= occurrences c (columns df) /\
   to_numeric_column df c = raise TypeError_to_numeric).
Proof.
  unfold to_numeric_column, occurrences.
  destruct (positions c (columns df)) as [|j [|j' js]]; simpl.
  - left. split; reflexivity.
  - right. left. split; [reflexivity|]. eexists. split; [reflexivity|].
    rewrite length_map, length_seq. reflexivity.
  - right. right. split; [lia | reflexivity].
Qed.

(** The loop over the five columns: it ends normally exactly when each of
    the five labels names one column; otherwise it raises [KeyError] for an
    absent label or [TypeError] for a repeated one. *)
Lemma to_numeric_rows_cases (df : Frame) (c1 c2 c3 c4 c5 : str) :
  ((forall c, In c [c1; c2; c3; c4; c5] -> occurrences c (columns df) = 1) /\
   exists rows, to_numeric_rows df c1 c2 c3 c4 c5 = ok rows /\
                length rows = nrows df) \/
  (exists c, In c [c1; c2; c3; c4; c5] /\ occurrences c (columns df) = 0 /\
             to_numeric_rows df c1 c2 c3 c4 c5 = raise (KeyError c)) \/
  (exists c, In c [c1; c2; c3; c4; c5] /\ 2 <= occurrences c (columns df) /\
             to_numeric_rows df c1 c2 c3 c4 c5 = raise TypeError_to_numeric).
Proof.
  unfold to_numeric_rows.
  destruct (to_numeric_column_cases df c1) as [[O1 ->]|[[O1 (l1 & -> & _)]|[O1 ->]]];
    [right; left; exists c1; simpl; auto | |
     right; right; exists c1; simpl; auto].
  destruct (to_numeric_column_cases df c2) as [[O2 ->]|[[O2 (l2 & -> & _)]|[O2 ->]]];
    [right; left; exists c2; simpl; auto | |
     right; right; exists c2; simpl; auto].
  destruct (to_numeric_column_cases df c3) as [[O3 ->]|[[O3 (l3 & -> & _)]|[O3 ->]]];
    [right; left; exists c3; simpl; auto | |
     right; right; exists c3; simpl; auto].
  destruct (to_numeric_column_cases df c4) as [[O4 ->]|[[O4 (l4 & -> & _)]|[O4 ->]]];
    [right; left; exists c4; simpl; auto 6 | |
     right; right; exists c4; simpl; auto 6].
  destruct (to_numeric_column_cases df c5) as [[O5 ->]|[[O5 (l5 & -> & _)]|[O5 ->]]];
    [right; left; exists c5; simpl; auto 7 | |
     right; right; exists c5; simpl; auto 7].
  left. split.
  - intros c [<-|[<-|[<-|[<-|[<-|[]]]]]]; assumption.
  - simpl. eexists. split; [reflexivity|].
    rewrite length_map, length_seq. reflexivity.
Qed.

End Lookup.

(** [iloc] with positions inside the series returns. *)
Lemma iloc_ok (s : list float) (idx : list nat) :
  (forall i, In i idx -> i < length s) ->
  exists vs, iloc s idx = ok vs /\ length vs = length idx.
Proof.
  induction idx as [|i rest IH]; intros H; simpl.
  - exists []. split; reflexivity.
  - destruct (nth_error s i) as [v|] eqn:E.
    + destruct IH as (vs & -> & L); [intros k Hk; apply H; right; exact Hk|].
      simpl. exists (v :: vs). split; [reflexivity | simpl; congruence].
    + exfalso. apply nth_error_None in E.
      specialize (H i (or_introl eq_refl)). lia.
Qed.

Lemma scale_obl_length (obl_raw : list float) :
  length (scale_obl obl_raw) = length obl_raw.
Proof.
  unfold scale_obl. destruct (F64.gt (series_max obl_raw) 100);
    [apply length_map | reflexivity].
Qed.

Lemma series_mul_map {A : Type} (f g : A -> float) (l : list A) :
  series_mul (map f l) (map g l) =
  map (fun r => PrimFloat.mul (f r) (g r)) l.
Proof.
  unfold series_mul. induction l as [|r l IH]; simpl.
  - reflexivity.
  - rewrite IH. reflexivity.
Qed.

End TableFacts.

(** ** The insolation script, stage by stage *)

Module InsolationFacts.
Import PyStrFacts TableFacts Insolation.

Section Stages.
Context {NP : NumPy} {PD : Pandas} {PY : Python}.

Lemma missing_In (df : Frame) (c : str) :
  In c (missing df) <-> In c needed_names /\ ~ In c (columns df).
Proof.
  unfold missing, needed. rewrite filter_In, set_iter_in, negb_true_iff.
  rewrite mem_false. tauto.
Qed.

Lemma missing_NoDup (df : Frame) : NoDup (missing df).
Proof. apply NoDup_filter, set_iter_nodup. Qed.

Lemma missing_nil (df : Frame) :
  missing df = [] <-> forall c, In c needed_names -> In c (columns df).
Proof.
  split.
  - intros E c Hc.
    destruct (in_dec (list_eq_dec N.eq_dec) c (columns df)) as [I|I];
      [exact I|].
    exfalso. assert (H : In c (missing df)) by (apply missing_In; tauto).
    rewrite E in H. exact H.
  - intros H. destruct (missing df) as [|c m] eqn:E; [reflexivity|].
    exfalso. assert (Hc : In c (missing df)) by (rewrite E; left; reflexivity).
    apply missing_In in Hc. destruct Hc as [Hn Ha]. apply Ha, H, Hn.
Qed.

Lemma check_columns_cases (df : Frame) :
  (missing df = [] /\ check_columns df = ok tt) \/
  (missing df <> [] /\
   check_columns df = raise (ValueError_missing (missing df) (columns df))).
Proof.
  unfold check_columns. destruct (missing df) as [|c m].
  - left. split; reflexivity.
  - right. split; [discriminate | reflexivity].
Qed.

(** What lines 82-109 leave in the module-level variables, given the rows of
    the numeric table. *)
Definition derived_from (rows : list Row) (d : Derived) : Prop :=
  df d = select (add_age_yr_b2k rows) /\
  age d = map Age_yr_b2k (df d) /\
  insol d = map (fun r => EXI (base r)) (df d) /\
  ecc d = map (fun r => ECC (base r)) (df d) /\
  obl d = scale_obl (map (fun r => OBL (base r)) (df d)) /\
  prec_index d =
    precession_index (ecc d) (map (fun r => OMEGA (base r)) (df d)) /\
  get_extrema_idx (ecc d) EXTREMA_ORDER = ok (ecc_max d, ecc_min d) /\
  get_extrema_idx (obl d) EXTREMA_ORDER = ok (obl_max d, obl_min d) /\
  get_extrema_idx (prec_index d) EXTREMA_ORDER = ok (prec_max d, prec_min d).

Lemma get_extrema_idx_returns (series : list float) :
  exists x, get_extrema_idx series EXTREMA_ORDER = ok x.
Proof.
  destruct (ExtremaFacts.get_extrema_idx_In series 3) as (mx & mn & E & _);
    [lia|].
  exists (mx, mn). exact E.
Qed.

(** Once the five columns are numeric, the rest of the transform stage
    returns. *)
Lemma transform_after_numeric (read_csv : Frame) (rows : list Row) :
  check_columns (robust_read_table read_csv) = ok tt ->
  to_numeric_rows (robust_read_table read_csv)
                  col_age col_ecc col_obl col_omega col_insol = ok rows ->
  exists d, transform read_csv = ok d /\ derived_from rows d.
Proof.
  intros Hc Hn. unfold transform. rewrite Hc. ok_step. rewrite Hn. ok_step.
  set (t := select (add_age_yr_b2k rows)).
  destruct (get_extrema_idx_returns (map (fun r => ECC (base r)) t))
    as ([emx emn] & Ee).
  destruct (get_extrema_idx_returns
              (scale_obl (map (fun r => OBL (base r)) t)))
    as ([omx omn] & Eo).
  destruct (get_extrema_idx_returns
              (precession_index (map (fun r => ECC (base r)) t)
                                (map (fun r => OMEGA (base r)) t)))
    as ([pmx pmn] & Ep).
  rewrite Ee. ok_step. rewrite Eo. ok_step. rewrite Ep. ok_step.
  eexists. split; [reflexivity|].
  unfold derived_from. simpl. repeat split; assumption.
Qed.

(** The three ways the transform stage ends. *)
Lemma transform_cases (read_csv : Frame) :
  let df0 := robust_read_table read_csv in
  (missing df0 <> [] /\
   transform read_csv =
     raise (ValueError_missing (missing df0) (columns df0))) \/
  (missing df0 = [] /\
   (exists c, In c needed_names /\ 2 <= occurrences c (columns df0)) /\
   transform read_csv = raise TypeError_to_numeric) \/
  ((forall c, In c needed_names -> occurrences c (columns df0) = 1) /\
   exists rows d,
     to_numeric_rows df0 col_age col_ecc col_obl col_omega col_insol = ok rows /\
     length rows = nrows read_csv /\
     transform read_csv = ok d /\ derived_from rows d).
Proof.
  intros df0.
  destruct (check_columns_cases df0) as [[Hm Hc]|[Hm Hc]].
  - destruct (to_numeric_rows_cases df0 col_age col_ecc col_obl col_omega col_insol)
      as [[Hall (rows & Hr & Hl)]|[(c & Hin & Ho & Hr)|(c & Hin & Ho & Hr)]].
    + right. right. split; [exact Hall|].
      destruct (transform_after_numeric read_csv rows Hc Hr) as (d & Ht & Hd).
      exists rows, d. auto.
    + exfalso. apply occurrences_zero in Ho. apply Ho.
      apply (proj1 (missing_nil df0) Hm). exact Hin.
    + right. left. split; [exact Hm|]. split; [exists c; auto|].
      unfold transform. fold df0. rewrite Hc. ok_step. rewrite Hr. reflexivity.
  - left. split; [exact Hm|].
    unfold transform. fold df0. rewrite Hc. reflexivity.
Qed.

Lemma transform_ok_inv (read_csv : Frame) (d : Derived) :
  transform read_csv = ok d ->
  (forall c, In c needed_names ->
             occurrences c (columns (robust_read_table read_csv)) = 1) /\
  exists rows,
    to_numeric_rows (robust_read_table read_csv)
                    col_age col_ecc col_obl col_omega col_insol = ok rows /\
    length rows = nrows read_csv /\
    derived_from rows d.
Proof.
  intros H.
  destruct (transform_cases read_csv)
    as [[_ E]|[(_ & _ & E)|(Hall & rows & d' & Hr & Hl & E & Hd)]];
    try (rewrite E in H; discriminate).
  rewrite E in H. injection H as <-.
  split; [exact Hall|]. exists rows. auto.
Qed.

End Stages.

End InsolationFacts.

(** ** The insolation script: drawing and the whole run *)

Module InsolationRun.
Import PyStrFacts TableFacts Insolation InsolationFacts.

Section Run.
Context {NP : NumPy} {PD : Pandas} {PY : Python} {MP : Matplotlib}.

Lemma precession_index_rows {A : Type} (e w : A -> float) (t : list A) :
  precession_index (map e t) (map w t) =
  map (fun r => PrimFloat.mul (e r) (np_sin (np_deg2rad (w r)))) t.
Proof.
  unfold precession_index. rewrite !map_map.
  apply (series_mul_map e (fun r => np_sin (np_deg2rad (w r)))).
Qed.

Lemma extrema_in_range (series : list float) (mx mn : list nat) :
  get_extrema_idx series EXTREMA_ORDER = ok (mx, mn) ->
  forall i, In i mx \/ In i mn -> i < length series.
Proof.
  intros E i Hi.
  destruct (ExtremaFacts.get_extrema_idx_In series 3)
    as (mx' & mn' & E' & Hmx & Hmn); [lia|].
  change (Z.of_nat 3) with EXTREMA_ORDER in E'. rewrite E in E'.
  injection E' as <- <-.
  destruct Hi as [Hi|Hi]; [apply Hmx in Hi | apply Hmn in Hi];
    destruct Hi as [_ [Hlt _]]; exact Hlt.
Qed.

(** All derived series have one value per row of the table. *)
Lemma derived_lengths (rows : list Row) (d : Derived) :
  derived_from rows d ->
  length (age d) = length (df d) /\ length (insol d) = length (df d) /\
  length (ecc d) = length (df d) /\ length (obl d) = length (df d) /\
  length (prec_index d) = length (df d).
Proof.
  intros (_ & Ha & Hi & He & Ho & Hp & _).
  rewrite Hp, He, precession_index_rows, Ha, Hi, Ho, scale_obl_length.
  rewrite !length_map. repeat split; reflexivity.
Qed.

(** Every extremum position is a row of the table. *)
Lemma derived_indices (rows : list Row) (d : Derived) :
  derived_from rows d ->
  forall i,
    In i (ecc_max d) \/ In i (ecc_min d) \/ In i (obl_max d) \/
    In i (obl_min d) \/ In i (prec_max d) \/ In i (prec_min d) ->
    i < length (df d).
Proof.
  intros Hd i Hi.
  destruct (derived_lengths rows d Hd) as (_ & _ & Le & Lo & Lp).
  destruct Hd as (_ & _ & _ & _ & _ & _ & Ee & Eo & Ep).
  destruct Hi as [H|[H|[H|[H|[H|H]]]]].
  - rewrite <- Le. apply (extrema_in_range _ _ _ Ee). left. exact H.
  - rewrite <- Le. apply (extrema_in_range _ _ _ Ee). right. exact H.
  - rewrite <- Lo. apply (extrema_in_range _ _ _ Eo). left. exact H.
  - rewrite <- Lo. apply (extrema_in_range _ _ _ Eo). right. exact H.
  - rewrite <- Lp. apply (extrema_in_range _ _ _ Ep). left. exact H.
  - rewrite <- Lp. apply (extrema_in_range _ _ _ Ep). right. exact H.
Qed.

Lemma scatter_ok (d : Derived) (idx : list nat) (label : string) :
  length (age d) = length (df d) -> length (insol d) = length (df d) ->
  (forall i, In i idx -> i < length (df d)) ->
  exists layer, scatter d idx label = ok layer.
Proof.
  intros La Li H. unfold scatter.
  destruct (iloc_ok (insol d) idx) as (xs & -> & _);
    [intros i Hi; rewrite Li; apply H; exact Hi|].
  destruct (iloc_ok (age d) idx) as (ys & -> & _);
    [intros i Hi; rewrite La; apply H; exact Hi|].
  ok_step. eexists. reflexivity.
Qed.

(** No marker position is out of bounds: drawing returns. *)
Lemma draw_ok (rows : list Row) (d : Derived) :
  derived_from rows d -> exists fig, draw d = ok fig.
Proof.
  intros Hd.
  destruct (derived_lengths rows d Hd) as (La & Li & _).
  pose proof (derived_indices rows d Hd) as Hidx.
  unfold draw.
  destruct (scatter_ok d (ecc_max d) "Ecc maxima" La Li) as (l1 & ->);
    [intros i Hi; apply Hidx; tauto|]. ok_step.
  destruct (scatter_ok d (ecc_min d) "Ecc minima" La Li) as (l2 & ->);
    [intros i Hi; apply Hidx; tauto|]. ok_step.
  destruct (scatter_ok d (obl_max d) "Obl maxima" La Li) as (l3 & ->);
    [intros i Hi; apply Hidx; tauto|]. ok_step.
  destruct (scatter_ok d (obl_min d) "Obl minima" La Li) as (l4 & ->);
    [intros i Hi; apply Hidx; tauto|]. ok_step.
  destruct (scatter_ok d (prec_max d) "Prec index maxima" La Li) as (l5 & ->);
    [intros i Hi; apply Hidx; tauto|]. ok_step.
  destruct (scatter_ok d (prec_min d) "Prec index minima" La Li) as (l6 & ->);
    [intros i Hi; apply Hidx; tauto|]. ok_step.
  eexists. reflexivity.
Qed.

(** The run, from the two stages: errors pass through, and a figure that was
    drawn is written twice, unless matplotlib raises. *)
Lemma main_unfold (read_csv : Frame) (w : Files) :
  main read_csv w =
  match transform read_csv with
  | inl e => inl e
  | inr d =>
      match draw d with
      | inl e => inl e
      | inr fig =>
          match rendered (saved_as fig) with
          | None => inl SavefigError
          | Some files => inr (d, w ++ files)
          end
      end
  end.
Proof.
  unfold main, sbind, lift, export, savefig, sret, sbind.
  destruct (transform read_csv) as [e|d]; [reflexivity|].
  destruct (draw d) as [e|fig]; [reflexivity|].
  unfold saved_as, rendered.
  destruct (print_figure (out_base ++ lit ".jpg") fig) as [bj|]; [|reflexivity].
  destruct (print_figure (out_base ++ lit ".svg") fig) as [bs|]; [|reflexivity].
  rewrite <- app_assoc. reflexivity.
Qed.

(** How a run ends once the table is transformed and the figure drawn. *)
Definition exported (d : Derived) (fig : Figure) : result (Derived * Files) :=
  match rendered (saved_as fig) with
  | None => raise SavefigError
  | Some files => ok (d, files)
  end.

(** The three ways a run ends, up to the export. *)
Lemma main_cases (read_csv : Frame) :
  let df0 := robust_read_table read_csv in
  (missing df0 <> [] /\
   run (main read_csv) =
     raise (ValueError_missing (missing df0) (columns df0))) \/
  (missing df0 = [] /\
   (exists c, In c needed_names /\ 2 <= occurrences c (columns df0)) /\
   run (main read_csv) = raise TypeError_to_numeric) \/
  ((forall c, In c needed_names -> occurrences c (columns df0) = 1) /\
   exists d fig,
     transform read_csv = ok d /\ draw d = ok fig /\
     run (main read_csv) = exported d fig).
Proof.
  intros df0. unfold run. rewrite main_unfold.
  destruct (transform_cases read_csv)
    as [[Hm E]|[(Hm & Hc & E)|(Hall & rows & d & Hr & Hl & E & Hd)]];
    rewrite E.
  - left. split; [exact Hm | reflexivity].
  - right. left. split; [exact Hm|]. split; [exact Hc | reflexivity].
  - right. right. split; [exact Hall|].
    destruct (draw_ok rows d Hd) as (fig & Ef).
    exists d, fig. unfold ok in *. rewrite Ef. unfold exported.
    split; [reflexivity|]. split; [reflexivity|].
    destruct (rendered (saved_as fig)); reflexivity.
Qed.

End Run.

End InsolationRun.

(** ** The correlation script, stage by stage *)

Module CorrelationFacts.
Import PyStrFacts TableFacts Correlation CorrelationOutput.

Section Stages.
Context {NP : NumPy} {PD : Pandas}.

(** What lines 108-123 leave in the local variables, given the rows of the
    numeric table. *)
Definition derived_from (rows : list Row) (d : Derived) : Prop :=
  sub d = select rows /\
  age_b2k d = map (fun r => to_ka_b2k (Age r)) (sub d) /\
  ecc d = map ECC (sub d) /\
  insol d = map EXI (sub d) /\
  obl d = scale_obl (map OBL (sub d)) /\
  prec_index d = precession_index (ecc d) (map OMEGA (sub d)).

Lemma corr_precession_index_rows {A : Type} (e w : A -> float) (t : list A) :
  precession_index (map e t) (map w t) =
  map (fun r => PrimFloat.mul (e r) (np_sin (np_deg2rad (w r)))) t.
Proof.
  unfold precession_index. rewrite !map_map.
  apply (series_mul_map e (fun r => np_sin (np_deg2rad (w r)))).
Qed.

(** The three ways the transform stage ends: there is no check of the
    header, so an absent column shows as the [KeyError] of the lookup. *)
Lemma corr_transform_cases (read_csv : Frame) :
  let df0 := robust_read_table read_csv in
  (exists c, In c column_names /\ occurrences c (columns df0) = 0 /\
             transform read_csv = raise (KeyError c)) \/
  (exists c, In c column_names /\ 2 <= occurrences c (columns df0) /\
             transform read_csv = raise TypeError_to_numeric) \/
  ((forall c, In c column_names -> occurrences c (columns df0) = 1) /\
   exists rows d,
     to_numeric_rows df0 col_age_bp col_ecc col_obl col_omega col_insol
       = ok rows /\
     length rows = nrows read_csv /\
     transform read_csv = ok d /\ derived_from rows d).
Proof.
  intros df0. unfold transform. fold df0.
  destruct (to_numeric_rows_cases df0 col_age_bp col_ecc col_obl col_omega
                                  col_insol)
    as [[Hall (rows & Hr & Hl)]|[(c & Hin & Ho & Hr)|(c & Hin & Ho & Hr)]];
    rewrite Hr; ok_step.
  - right. right. split; [exact Hall|].
    exists rows. eexists. split; [reflexivity|]. split; [exact Hl|].
    split; [reflexivity|]. unfold derived_from. simpl.
    repeat split; reflexivity.
  - left. exists c. auto.
  - right. left. exists c. auto.
Qed.

Lemma corr_main_unfold {MP : Matplotlib} (read_csv : Frame) (w : Files) :
  main read_csv w =
  match transform read_csv with
  | inl e => inl e
  | inr d =>
      match rendered (figures_of d) with
      | None => inl SavefigError
      | Some files => inr (d, w ++ files)
      end
  end.
Proof.
  unfold main, sbind, lift, scatter_plot, export_figure, savefig, sret, sbind.
  destruct (transform read_csv) as [e|d]; [reflexivity|].
  unfold figures_of, figure_of, rendered.
  change (lit "corr_insolation_vs_ecc" ++ lit ".jpg")
    with (lit "corr_insolation_vs_ecc.jpg").
  change (lit "corr_insolation_vs_ecc" ++ lit ".svg")
    with (lit "corr_insolation_vs_ecc.svg").
  change (lit "corr_insolation_vs_obliquity" ++ lit ".jpg")
    with (lit "corr_insolation_vs_obliquity.jpg").
  change (lit "corr_insolation_vs_obliquity" ++ lit ".svg")
    with (lit "corr_insolation_vs_obliquity.svg").
  change (lit "corr_insolation_vs_precession_index" ++ lit ".jpg")
    with (lit "corr_insolation_vs_precession_index.jpg").
  change (lit "corr_insolation_vs_precession_index" ++ lit ".svg")
    with (lit "corr_insolation_vs_precession_index.svg").
  repeat match goal with
         | |- context [print_figure ?n ?f] =>
             destruct (print_figure n f); [|reflexivity]
         end.
  rewrite <- !app_assoc. reflexivity.
Qed.

End Stages.

End CorrelationFacts.

(** ** Filtering and sorting *)

Module SelectFacts.

Section Sorting.
Context {PD : Pandas} {A : Type} (key : A -> float).

Lemma sort_values_In (l : list A) (x : A) :
  In x (sort_values key l) <-> In x l.
Proof.
  split; apply Permutation_in;
    [apply sort_values_perm | apply Permutation_sym, sort_values_perm].
Qed.

Lemma sort_values_length (l : list A) :
  length (sort_values key l) = length l.
Proof. apply Permutation_length, sort_values_perm. Qed.

Lemma sort_values_Forall (P : A -> Prop) (l : list A) :
  Forall P l -> Forall P (sort_values key l).
Proof.
  rewrite !Forall_forall. intros H x Hx. apply H, sort_values_In, Hx.
Qed.

(** On keys without NaN, sorted for [sort_values] is sorted for [<=]. *)
Lemma Sorted_key_le_leb (l : list A) :
  Forall (fun a => PrimFloat.is_nan (key a) = false) l ->
  Sorted (fun a b => F64.key_le (key a) (key b) = true) l ->
  Sorted (fun a b => PrimFloat.leb (key a) (key b) = true) l.
Proof.
  intros Hn Hs. induction Hs as [|a l Hs IH Hhd].
  - constructor.
  - inversion Hn as [|? ? Ha Hl]; subst.
    constructor; [apply IH; exact Hl|].
    destruct Hhd as [|b l' Hab]; constructor.
    inversion Hl as [|? ? Hb _]; subst.
    rewrite F64Facts.key_le_leb in Hab by assumption. exact Hab.
Qed.

(** ... and then every row is below every later row. *)
Lemma sort_values_ascending (l : list A) :
  Forall (fun a => PrimFloat.is_nan (key a) = false) l ->
  StronglySorted (fun a b => PrimFloat.leb (key a) (key b) = true)
                 (sort_values key l).
Proof.
  intros Hn. apply Sorted_StronglySorted.
  - intros a b c. apply F64Facts.leb_trans.
  - apply Sorted_key_le_leb.
    + apply sort_values_Forall. exact Hn.
    + apply sort_values_sorted.
Qed.

End Sorting.

Section InsolationSelect.
Context {PD : Pandas}.
Import Insolation.

Lemma in_window_bounds (b : float) :
  in_window b = true <->
  PrimFloat.leb 128000 b = true /\ PrimFloat.leb b 220000 = true.
Proof.
  unfold in_window, F64.ge, F64.le, AGE_MIN_YR_B2K, AGE_MAX_YR_B2K.
  apply andb_true_iff.
Qed.

Lemma select_In (rows : list Aged) (r : Aged) :
  In r (select rows) <->
  In r rows /\ in_window (Age_yr_b2k r) = true /\ has_na r = false.
Proof.
  unfold select, dropna, filter_window.
  rewrite sort_values_In, !filter_In, negb_true_iff. tauto.
Qed.

Lemma select_ascending (rows : list Aged) :
  StronglySorted
    (fun a b => PrimFloat.leb (Age_yr_b2k a) (Age_yr_b2k b) = true)
    (select rows).
Proof.
  unfold select. apply sort_values_ascending.
  apply Forall_forall. intros r Hr.
  unfold dropna in Hr. apply filter_In in Hr. destruct Hr as [_ Hr].
  apply negb_true_iff in Hr. unfold has_na in Hr.
  repeat (apply orb_false_iff in Hr; destruct Hr as [Hr ?]). exact Hr.
Qed.

End InsolationSelect.

Section CorrelationSelect.
Context {PD : Pandas}.
Import Correlation.

Lemma select_In_corr (rows : list Row) (r : Row) :
  In r (select rows) <-> In r rows /\ in_window (Age r) = true.
Proof.
  unfold select, filter_window. rewrite sort_values_In, filter_In. tauto.
Qed.

Lemma select_ascending_corr (rows : list Row) :
  StronglySorted (fun a b => PrimFloat.leb (Age a) (Age b) = true)
                 (select rows).
Proof.
  unfold select. apply sort_values_ascending.
  apply Forall_forall. intros r Hr.
  unfold filter_window in Hr. apply filter_In in Hr. destruct Hr as [_ Hr].
  unfold in_window, F64.ge in Hr. apply andb_true_iff in Hr.
  destruct Hr as [Hr _]. apply F64Facts.leb_not_nan in Hr. tauto.
Qed.

End CorrelationSelect.

End SelectFacts.

(** ** The maximum of a series *)

Module SeriesMaxFacts.

Lemma max2_not_nan (v x : float) :
  PrimFloat.is_nan v = false -> PrimFloat.is_nan x = false ->
  PrimFloat.is_nan (max2 v x) = false.
Proof.
  intros Hv Hx. unfold max2. destruct (F64.gt v x); assumption.
Qed.

Lemma max2_gt (t v x : float) :
  PrimFloat.is_nan v = false -> PrimFloat.is_nan x = false ->
  F64.gt (max2 v x) t = true <-> F64.gt v t = true \/ F64.gt x t = true.
Proof.
  intros Hv Hx. unfold max2, F64.gt.
  destruct (PrimFloat.ltb x v) eqn:E; split; auto.
  - intros [H|H]; [exact H|].
    apply (F64Facts.ltb_leb_trans t x v H). apply F64Facts.ltb_leb. exact E.
  - intros [H|H]; [|exact H].
    apply (F64Facts.ltb_leb_trans t v x H).
    apply F64Facts.ltb_false_leb; assumption.
Qed.

Lemma fold_max2_gt (t : float) (vs : list float) (v : float) :
  Forall (fun x => PrimFloat.is_nan x = false) vs ->
  PrimFloat.is_nan v = false ->
  F64.gt (fold_left max2 vs v) t = true <->
  F64.gt v t = true \/ exists x, In x vs /\ F64.gt x t = true.
Proof.
  revert v. induction vs as [|x vs IH]; intros v Hvs Hv; simpl.
  - split; [auto | intros [H|(x & [] & _)]; exact H].
  - inversion Hvs as [|? ? Hx Hvs']; subst.
    rewrite IH by (try apply max2_not_nan; assumption).
    rewrite max2_gt by assumption. split.
    + intros [[H|H]|(y & Hy & H)]; eauto.
    + intros [H|(y & [<-|Hy] & H)]; eauto.
Qed.

(** [Series.max()] exceeds [t] exactly when some value of the series
    does. *)
Lemma series_max_gt (s : list float) (t : float) :
  F64.gt (series_max s) t = true <->
  exists x, In x s /\ F64.gt x t = true.
Proof.
  unfold series_max.
  assert (Hin : forall x, In x s -> F64.gt x t = true ->
                In x (filter (fun x => negb (PrimFloat.is_nan x)) s)).
  { intros x Hx Hg. apply filter_In. split; [exact Hx|].
    apply F64Facts.ltb_not_nan in Hg. destruct Hg as [_ ->]. reflexivity. }
  destruct (filter (fun x => negb (PrimFloat.is_nan x)) s) as [|v vs] eqn:E.
  - split.
    + intros H. apply F64Facts.ltb_not_nan in H. destruct H as [_ H].
      discriminate H.
    + intros (x & Hx & Hg). exfalso. exact (Hin x Hx Hg).
  - assert (Hall : Forall (fun x => PrimFloat.is_nan x = false) (v :: vs)).
    { apply Forall_forall. intros x Hx. rewrite <- E in Hx.
      apply filter_In in Hx. destruct Hx as [_ Hx].
      apply negb_true_iff in Hx. exact Hx. }
    inversion Hall as [|? ? Hv Hvs]; subst.
    rewrite fold_max2_gt by assumption. split.
    + assert (Hsub : forall x, In x (v :: vs) -> In x s).
      { intros x Hx. rewrite <- E in Hx. apply filter_In in Hx. tauto. }
      intros [H|(x & Hx & H)].
      * exists v. split; [apply Hsub; left; reflexivity | exact H].
      * exists x. split; [apply Hsub; right; exact Hx | exact H].
    + intros (x & Hx & Hg). destruct (Hin x Hx Hg) as [<-|Hx'].
      * left. exact Hg.
      * right. exists x. split; assumption.
Qed.

End SeriesMaxFacts.

(** ** What the [savefig] calls write *)

Module RenderFacts.

Section Render.
Context {MP : Matplotlib}.

(** The files written carry the names and the figures of the calls, in
    order, and the bytes matplotlib returned for them. *)
Lemma rendered_spec (calls : list (str * Figure)) (files : Files) :
  rendered calls = Some files ->
  map file_name files = map fst calls /\
  map file_figure files = map snd calls /\
  Forall (fun f => print_figure (file_name f) (file_figure f)
                   = Some (file_bytes f)) files.
Proof.
  revert files. induction calls as [|[name fig] rest IH]; intros files; simpl.
  - intros [= <-]. repeat split; constructor.
  - destruct (print_figure name fig) as [b|] eqn:Eb; [|discriminate].
    destruct (rendered rest) as [fs|]; [|discriminate].
    intros [= <-]. destruct (IH fs eq_refl) as (Hn & Hf & Hb).
    simpl. rewrite Hn, Hf. repeat split. constructor; [exact Eb | exact Hb].
Qed.

(** The calls fail as a whole exactly when one of them does. *)
Lemma rendered_None (calls : list (str * Figure)) :
  rendered calls = None <->
  exists name fig, In (name, fig) calls /\ print_figure name fig = None.
Proof.
  induction calls as [|[name fig] rest IH]; simpl.
  - split; [discriminate | intros (? & ? & [] & _)].
  - destruct (print_figure name fig) as [b|] eqn:Eb.
    + destruct (rendered rest) as [fs|].
      * split; [discriminate|].
        intros (n & f & [[= <- <-]|Hin] & Hn); [congruence|].
        assert (H : Some fs = None) by (apply (proj2 IH); eauto).
        discriminate H.
      * split; [|reflexivity]. intros _.
        destruct (proj1 IH eq_refl) as (n & f & Hin & Hn). eauto.
    + split; [|reflexivity]. intros _. eauto.
Qed.

End Render.

End RenderFacts.

(** ** Sample tables *)

Module Sample.

Definition header : list str :=
  [lit "Age"; lit "ECC"; lit "OBL"; lit "OMEGA"; lit "EXI"].

(** Age [ka BP], eccentricity, obliquity [thousandths of a degree],
    longitude of perihelion [deg], insolation [W/m2]. *)
Definition rows : list (list float) :=
  [ [126; 0.03125;  24000; 10;    440];
    [150; 0.0625;   23500; 60;    460];
    [130; 0.03125;  22500; 45;    430];
    [140; 0.046875; 24500; 30;    450];
    [160; 0.03125;  23000; 0;     445];
    [170; 0.015625; 22000; (-30); 420];
    [180; 0.03125;  24000; (-45); 455];
    [190; PrimFloat.nan; 23000; (-60); 450];
    [230; 0.03125;  23000; 20;    440] ]%float.

Definition table : @Frame pandas_reference := frame_of header rows.

(** The same table under a header with a byte order mark, a no-break space
    and blanks around the names. *)
Definition noisy_header : list str :=
  [BOM :: lit "Age"; lit "ECC" ++ [NBSP]; lit " OBL"; lit "OMEGA  ";
   NBSP :: lit "EXI"].

Definition noisy_table : @Frame pandas_reference := frame_of noisy_header rows.

(** Two columns whose names both normalize to [Age]. *)
Definition duplicate_header : list str :=
  [lit "Age"; lit "Age" ++ [NBSP]; lit "ECC"; lit "OBL"; lit "OMEGA";
   lit "EXI"].

Definition duplicate_table : @Frame pandas_reference :=
  frame_of duplicate_header
           [ [150; 150; 0.0625; 23500; 90; 460];
             [130; 130; 0.03125; 22500; 45; 430] ]%float.

(** No eccentricity and no obliquity column. *)
Definition short_header : list str := [lit "Age"; lit "OMEGA"; lit "EXI"].

Definition short_table : @Frame pandas_reference :=
  frame_of short_header [ [150; 90; 460]; [130; 45; 430] ]%float.

(** A series that only falls. *)
Definition falling : list float := [0.5; 0.25; 0.125; 0.0625; 0.03125]%float.

End Sample.

(* ================================================================== *)
(** * Part III: the claims                                             *)
(* ================================================================== *)

(** ** C1: local extrema *)

(** C1, as the claim states it, fails at the ends of the series: in a
    series that only falls, the first value is strictly greater than every
    value within three positions inside the bounds and the last value is
    strictly less than every such value, yet [get_extrema_idx] returns
    neither position. *)
Lemma get_extrema_idx_ends_not_returned :
  exists max_idx min_idx,
    get_extrema_idx Sample.falling 3 = ok (max_idx, min_idx) /\
    beats_neighbours F64.gt Sample.falling 3 0 /\ ~ In 0 max_idx /\
    beats_neighbours F64.lt Sample.falling 3 4 /\ ~ In 4 min_idx.
Proof.
  exists [], []. split; [vm_compute; reflexivity|].
  split; [|split; [intros []|split; [|intros []]]].
  - split; [simpl; lia|].
    intros j Hj (Hne & _ & Hd).
    destruct j as [|[|[|[|j]]]]; try (vm_compute; reflexivity); lia.
  - split; [simpl; lia|].
    intros j Hj (Hne & Hd & _).
    destruct j as [|[|[|[|j]]]]; try (vm_compute; reflexivity);
      simpl in Hj; lia.
Qed.

(** C1 (amended): with [order = 3], [get_extrema_idx] always returns, and a
    position is returned as a maximum iff it is neither the first nor the
    last position and its value is strictly greater than every value at
    distance 1..3 inside the array bounds; as a minimum iff the same holds
    with strictly less.  In the script the three calls are made on the
    eccentricity, the scaled obliquity and the precession index of the
    sorted, filtered table (not on the insolation), and every position
    returned is a row of that table. *)
Theorem get_extrema_idx_interior_strict :
  (forall series : list float,
      exists max_idx min_idx,
        get_extrema_idx series 3 = ok (max_idx, min_idx) /\
        (forall i, In i max_idx <->
                   interior series i /\ beats_neighbours F64.gt series 3 i) /\
        (forall i, In i min_idx <->
                   interior series i /\ beats_neighbours F64.lt series 3 i)) /\
  (forall (NP : NumPy) (PD : Pandas) (PY : Python) (read_csv : Frame)
          (d : Insolation.Derived),
      Insolation.transform read_csv = ok d ->
      let table := Insolation.df d in
      let ecc := map (fun r => ECC (Insolation.base r)) table in
      let obl := scale_obl (map (fun r => OBL (Insolation.base r)) table) in
      let prec_index :=
        map (fun r => PrimFloat.mul (ECC (Insolation.base r))
                        (np_sin (np_deg2rad (OMEGA (Insolation.base r)))))
            table in
      get_extrema_idx ecc 3 =
        ok (Insolation.ecc_max d, Insolation.ecc_min d) /\
      get_extrema_idx obl 3 =
        ok (Insolation.obl_max d, Insolation.obl_min d) /\
      get_extrema_idx prec_index 3 =
        ok (Insolation.prec_max d, Insolation.prec_min d) /\
      forall i,
        In i (Insolation.ecc_max d) \/ In i (Insolation.ecc_min d) \/
        In i (Insolation.obl_max d) \/ In i (Insolation.obl_min d) \/
        In i (Insolation.prec_max d) \/ In i (Insolation.prec_min d) ->
        i < length table).
Proof.
  split.
  - intros series. apply (ExtremaFacts.get_extrema_idx_In series 3). lia.
  - intros NP PD PY read_csv d Ht table ecc obl prec_index.
    destruct (InsolationFacts.transform_ok_inv read_csv d Ht)
      as (_ & rows & _ & _ & Hd).
    pose proof (InsolationRun.derived_indices rows d Hd) as Hidx.
    destruct Hd as (_ & _ & _ & He & Ho & Hp & Ee & Eo & Ep).
    rewrite He in Hp. rewrite InsolationRun.precession_index_rows in Hp.
    subst table ecc obl prec_index.
    rewrite <- He, <- Ho, <- Hp. auto.
Qed.

(** On the sample table: the eccentricity peaks at row 2 (150 ka BP) and is
    lowest at row 4 (170 ka BP); the ends, rows 0 and 5, are not returned. *)
Example get_extrema_idx_sample :
  get_extrema_idx [0.03125; 0.046875; 0.0625; 0.03125; 0.015625; 0.03125]%float 3
  = ok ([2], [4]).
Proof. vm_compute. reflexivity. Qed.

(** The positions found on the sample table are rows of its sorted, filtered
    part. *)
Lemma get_extrema_idx_interior_strict_witness :
  exists d,
    @Insolation.transform numpy_reference pandas_reference python_forward
      Sample.table = ok d /\
    Insolation.ecc_max d = [2] /\ Insolation.ecc_min d = [4] /\
    length (Insolation.df d) = 6 /\
    forall i,
      In i (Insolation.ecc_max d) \/ In i (Insolation.ecc_min d) \/
      In i (Insolation.obl_max d) \/ In i (Insolation.obl_min d) \/
      In i (Insolation.prec_max d) \/ In i (Insolation.prec_min d) ->
      i < length (Insolation.df d).
Proof.
  eexists. split; [vm_compute; reflexivity|].
  split; [reflexivity|]. split; [reflexivity|]. split; [reflexivity|].
  refine (proj2 (proj2 (proj2
    (proj2 get_extrema_idx_interior_strict numpy_reference pandas_reference
       python_forward Sample.table _ _)))).
  vm_compute. reflexivity.
Defined.

(** ** C2: the time axis *)

(** C2: the insolation script maps every age [a] (ka BP) to [a * 1000 + 50]
    (yr b2k) and its filter keeps a row iff that converted age lies in
    [128000, 220000]; the final table holds exactly the converted rows that
    pass this filter and have no NaN in the key columns.  The correlation
    script filters the BP age against [115 - 0.05, 250 - 0.05], the b2k
    window shifted by [SHIFT_KA = 50 / 1000] (the binary64 value of 0.05),
    and then adds that shift to the BP age. *)
Theorem age_conversion_and_window :
  (forall a : float, Insolation.to_yr_b2k a = (a * 1000 + 50)%float) /\
  (forall rows : list Row,
      map Insolation.Age_yr_b2k (Insolation.add_age_yr_b2k rows) =
      map (fun r => (Age r * 1000 + 50)%float) rows) /\
  (forall (rows : list Insolation.Aged) (r : Insolation.Aged),
      In r (Insolation.filter_window rows) <->
      In r rows /\
      (128000 <=? Insolation.Age_yr_b2k r)%float = true /\
      (Insolation.Age_yr_b2k r <=? 220000)%float = true) /\
  (forall (NP : NumPy) (PD : Pandas) (PY : Python) (read_csv : Frame)
          (d : Insolation.Derived),
      Insolation.transform read_csv = ok d ->
      exists rows,
        to_numeric_rows (Insolation.robust_read_table read_csv)
          Insolation.col_age Insolation.col_ecc Insolation.col_obl
          Insolation.col_omega Insolation.col_insol = ok rows /\
        forall r,
          In r (Insolation.df d) <->
          (exists r0, In r0 rows /\
                      r = Insolation.mkAged r0 (Age r0 * 1000 + 50)%float) /\
          (128000 <=? Insolation.Age_yr_b2k r)%float = true /\
          (Insolation.Age_yr_b2k r <=? 220000)%float = true /\
          Insolation.has_na r = false) /\
  Correlation.SHIFT_KA = (50 / 1000)%float /\
  Correlation.SHIFT_KA = 0x1.999999999999ap-5%float /\
  (forall (rows : list Row) (r : Row),
      In r (Correlation.filter_window rows) <->
      In r rows /\
      (115 - Correlation.SHIFT_KA <=? Age r)%float = true /\
      (Age r <=? 250 - Correlation.SHIFT_KA)%float = true) /\
  (forall a : float,
      Correlation.to_ka_b2k a = (a + Correlation.SHIFT_KA)%float) /\
  (forall (NP : NumPy) (PD : Pandas) (read_csv : Frame)
          (d : Correlation.Derived),
      Correlation.transform read_csv = ok d ->
      exists rows,
        to_numeric_rows (Correlation.robust_read_table read_csv)
          Correlation.col_age_bp Correlation.col_ecc Correlation.col_obl
          Correlation.col_omega Correlation.col_insol = ok rows /\
        (forall r,
            In r (Correlation.sub d) <->
            In r rows /\
            (115 - Correlation.SHIFT_KA <=? Age r)%float = true /\
            (Age r <=? 250 - Correlation.SHIFT_KA)%float = true) /\
        Correlation.age_b2k d =
          map (fun r => (Age r + Correlation.SHIFT_KA)%float)
              (Correlation.sub d)).
Proof.
  assert (Hwin : forall (rows : list Row) (r : Row),
             In r (Correlation.filter_window rows) <->
             In r rows /\
             (115 - Correlation.SHIFT_KA <=? Age r)%float = true /\
             (Age r <=? 250 - Correlation.SHIFT_KA)%float = true).
  { intros rows r. unfold Correlation.filter_window.
    rewrite filter_In. unfold Correlation.in_window.
    rewrite andb_true_iff. reflexivity. }
  repeat match goal with |- _ /\ _ => split end.
  - intros a. reflexivity.
  - intros rows. unfold Insolation.add_age_yr_b2k. rewrite map_map.
    reflexivity.
  - intros rows r. unfold Insolation.filter_window.
    rewrite filter_In, SelectFacts.in_window_bounds. reflexivity.
  - intros NP PD PY read_csv d Ht.
    destruct (InsolationFacts.transform_ok_inv read_csv d Ht)
      as (_ & rows & Hr & _ & Hd).
    exists rows. split; [exact Hr|]. intros r.
    destruct Hd as (-> & _).
    rewrite SelectFacts.select_In, SelectFacts.in_window_bounds.
    unfold Insolation.add_age_yr_b2k. rewrite in_map_iff.
    split.
    + intros ((r0 & <- & Hr0) & (H1 & H2) & H3).
      split; [|split; [exact H1 | split; [exact H2 | exact H3]]].
      exists r0. split; [exact Hr0 | reflexivity].
    + intros ((r0 & Hr0 & ->) & H1 & H2 & H3).
      split; [|split; [split; [exact H1 | exact H2] | exact H3]].
      exists r0. split; [reflexivity | exact Hr0].
  - reflexivity.
  - vm_compute. reflexivity.
  - exact Hwin.
  - intros a. reflexivity.
  - intros NP PD read_csv d Ht.
    destruct (CorrelationFacts.corr_transform_cases read_csv)
      as [(c & _ & _ & E)|[(c & _ & _ & E)|(_ & rows & d' & Hr & _ & E & Hd)]];
      try (rewrite E in Ht; discriminate).
    rewrite E in Ht. injection Ht as <-.
    exists rows. split; [exact Hr|].
    destruct Hd as (Hs & Ha & _). split.
    + intros r. rewrite Hs, SelectFacts.select_In_corr.
      unfold Correlation.in_window. rewrite andb_true_iff. reflexivity.
    + exact Ha.
Qed.

(** On the sample table the rows at 126 and 230 ka BP fall outside the
    window and the row without eccentricity is dropped; every row left is
    inside. *)
Lemma age_conversion_and_window_witness :
  exists d,
    @Insolation.transform numpy_reference pandas_reference python_forward
      Sample.table = ok d /\
    Insolation.age d
    = [130050; 140050; 150050; 160050; 170050; 180050]%float /\
    forall r, In r (Insolation.df d) ->
              (128000 <=? Insolation.Age_yr_b2k r)%float = true /\
              (Insolation.Age_yr_b2k r <=? 220000)%float = true.
Proof.
  eexists. split; [vm_compute; reflexivity|].
  split; [vm_compute; reflexivity|].
  destruct (proj1 (proj2 (proj2 (proj2 age_conversion_and_window)))
              numpy_reference pandas_reference python_forward Sample.table
              _ eq_refl) as (rows & _ & H).
  intros r Hr. apply H in Hr. destruct Hr as (_ & H1 & H2 & _).
  split; assumption.
Defined.

(** The interval is closed at both ends, and a row at 130 ka BP lies at
    130050 yr b2k, or at the binary64 value next to 130.05 ka b2k. *)
Example window_ends :
  Insolation.in_window 128000 = true /\
  Insolation.in_window 220000 = true /\
  Insolation.in_window 127999.5 = false /\
  Insolation.in_window 220000.5 = false /\
  Insolation.in_window PrimFloat.nan = false /\
  Insolation.to_yr_b2k 130 = 130050%float /\
  Correlation.to_ka_b2k 130 = 0x1.041999999999ap+7%float.
Proof. vm_compute. repeat split; reflexivity. Qed.

(** ** C3: the header check of the insolation script *)

(** C3, as the claim states it, fails when two header cells normalize to the
    same required name: no required column is absent, yet the run raises
    (the [TypeError] of [pd.to_numeric] on the two-column selection). *)
Lemma insolation_raises_with_no_column_missing :
  (forall c, In c Insolation.needed_names ->
             In c (columns (Insolation.robust_read_table
                              Sample.duplicate_table))) /\
  run (@Insolation.main numpy_reference pandas_reference python_forward
         matplotlib_reference Sample.duplicate_table)
  = raise TypeError_to_numeric.
Proof.
  split; [|vm_compute; reflexivity].
  intros c Hc. apply PyStrFacts.mem_In.
  destruct Hc as [<-|[<-|[<-|[<-|[<-|[]]]]]]; vm_compute; reflexivity.
Qed.

(** How a run ends, stage by stage: nothing catches an exception. *)

Module ExportFacts.
Import Insolation InsolationFacts InsolationRun.

Section InsolationExport.
Context {NP : NumPy} {PD : Pandas} {PY : Python} {MP : Matplotlib}.

Lemma exported_not_check (d : Derived) (fig : Figure)
    (missing found : list str) :
  exported d fig <> raise (ValueError_missing missing found).
Proof.
  unfold exported. destruct (rendered (saved_as fig)); discriminate.
Qed.




End InsolationExport.

Section CorrelationExport.
Context {NP : NumPy} {PD : Pandas} {MP : Matplotlib}.

Lemma corr_run_transform_raise (read_csv : Frame) (e : exn) :
  Correlation.transform read_csv = raise e ->
  run (Correlation.main read_csv) = raise e.
Proof.
  intros E. unfold run. rewrite CorrelationFacts.corr_main_unfold, E.
  reflexivity.
Qed.


End CorrelationExport.

End ExportFacts.

(** C3 (amended): the insolation script raises the [ValueError] of line 71
    iff at least one of the five required columns is absent from the
    normalized header, and that error lists exactly the missing columns
    (each once) together with the columns found.  When no column is missing
    the check passes and the pipeline proceeds to the numeric conversion:
    there a required name that labels more than one column raises
    [TypeError]; when each labels one column (in a header that does not
    repeat the derived name [Age_yr_b2k]) the five columns are read and the
    pipeline goes on through the transform and the drawing to the two
    [savefig] calls, which decide how the run ends. *)
Theorem insolation_header_check :
  forall (NP : NumPy) (PD : Pandas) (PY : Python) (MP : Matplotlib)
         (read_csv : Frame),
    let df := Insolation.robust_read_table read_csv in
    let found := columns df in
    ((exists missing found',
         run (Insolation.main read_csv) =
           raise (ValueError_missing missing found')) <->
     (exists c, In c Insolation.needed_names /\ ~ In c found)) /\
    (forall missing found',
        run (Insolation.main read_csv) =
          raise (ValueError_missing missing found') ->
        found' = found /\ NoDup missing /\
        forall c, In c missing <->
                  In c Insolation.needed_names /\ ~ In c found) /\
    ((forall c, In c Insolation.needed_names -> In c found) ->
     Insolation.check_columns df = ok tt /\
     ((exists c, In c Insolation.needed_names /\ 2 <= occurrences c found) ->
      run (Insolation.main read_csv) = raise TypeError_to_numeric) /\
     ((forall c, In c Insolation.needed_names -> occurrences c found = 1) ->
      derived_label_once found ->
      exists rows d fig,
        to_numeric_rows df Insolation.col_age Insolation.col_ecc
          Insolation.col_obl Insolation.col_omega Insolation.col_insol
        = ok rows /\
        Insolation.transform read_csv = ok d /\
        Insolation.draw d = ok fig /\
        run (Insolation.main read_csv) =
        match rendered (saved_as fig) with
        | None => raise SavefigError
        | Some files => ok (d, files)
        end)).
Proof.
  intros NP PD PY MP read_csv df found.
  pose proof (InsolationRun.main_cases read_csv) as Hcases.
  cbv zeta in Hcases. fold df in Hcases. fold found in Hcases.
  assert (Hmiss : Insolation.missing df <> [] <->
                  exists c, In c Insolation.needed_names /\ ~ In c found).
  { split.
    - intros Hne. destruct (Insolation.missing df) as [|c m] eqn:E;
        [congruence|].
      exists c. apply InsolationFacts.missing_In. rewrite E. left. reflexivity.
    - intros (c & Hc) E. apply InsolationFacts.missing_In in Hc.
      rewrite E in Hc. exact Hc. }
  split; [|split].
  - destruct Hcases
      as [[Hm E]|[(Hm & _ & E)|(Hall & d & fig & _ & _ & E)]]; rewrite E.
    + split; [intros _; apply Hmiss, Hm | intros _; eauto].
    + split; [intros (m & f & [=])|].
      intros Hex. exfalso. apply Hmiss in Hex. contradiction.
    + split.
      * intros (m & f & H). exfalso.
        exact (ExportFacts.exported_not_check d fig m f H).
      * intros (c & Hc & Ha). exfalso.
        apply TableFacts.occurrences_zero in Ha. specialize (Hall c Hc).
        fold df in Hall. fold found in Hall. lia.
  - intros missing found' Hrun.
    destruct Hcases
      as [[Hm E]|[(Hm & _ & E)|(Hall & d & fig & _ & _ & E)]];
      rewrite E in Hrun.
    + injection Hrun as <- <-. split; [reflexivity|].
      split; [apply InsolationFacts.missing_NoDup|].
      intros c. apply InsolationFacts.missing_In.
    + discriminate Hrun.
    + exfalso. exact (ExportFacts.exported_not_check d fig _ _ Hrun).
  - intros Hpresent.
    assert (Hm : Insolation.missing df = [])
      by (apply InsolationFacts.missing_nil; exact Hpresent).
    assert (Hc : Insolation.check_columns df = ok tt).
    { destruct (InsolationFacts.check_columns_cases df) as [[_ E]|[Hne _]];
        [exact E | contradiction]. }
    split; [exact Hc|]. split.
    + intros (c & Hin & Ho).
      destruct Hcases
        as [[Hne _]|[(_ & _ & E)|(Hall & _)]];
        [contradiction | exact E |].
      specialize (Hall c Hin). fold df in Hall. fold found in Hall. lia.
    + intros Hones _.
      destruct Hcases
        as [[Hne _]|[(_ & (c & Hin & Ho) & _)|(_ & d & fig & Ht & Ef & E)]].
      * contradiction.
      * specialize (Hones c Hin). lia.
      * destruct (InsolationFacts.transform_ok_inv read_csv d Ht)
          as (_ & rows & Hr & _).
        exists rows, d, fig. split; [exact Hr|].
        split; [exact Ht|]. split; [exact Ef | exact E].
Qed.

(** On the sample table with a noisy header no column is missing after
    normalization: the five columns are read and the run goes through to
    the export; with the eccentricity and obliquity columns gone it raises,
    naming both. *)
Lemma insolation_header_check_witness :
  (exists d fig,
      @Insolation.transform numpy_reference pandas_reference python_forward
        Sample.noisy_table = ok d /\
      Insolation.draw d = ok fig /\
      run (@Insolation.main numpy_reference pandas_reference python_forward
             matplotlib_reference Sample.noisy_table) =
      match @rendered matplotlib_reference (saved_as fig) with
      | None => raise SavefigError
      | Some files => ok (d, files)
      end) /\
  run (@Insolation.main numpy_reference pandas_reference python_forward
         matplotlib_reference Sample.short_table)
  = raise (ValueError_missing [lit "ECC"; lit "OBL"]
                              [lit "Age"; lit "OMEGA"; lit "EXI"]).
Proof.
  split; [|vm_compute; reflexivity].
  destruct (proj2 (proj2
    (insolation_header_check numpy_reference pandas_reference python_forward
       matplotlib_reference Sample.noisy_table))) as (_ & _ & H).
  { intros c Hc. apply PyStrFacts.mem_In.
    destruct Hc as [<-|[<-|[<-|[<-|[<-|[]]]]]]; vm_compute; reflexivity. }
  destruct H as (rows & d & fig & _ & Ht & Ef & E).
  - intros c Hc.
    destruct Hc as [<-|[<-|[<-|[<-|[<-|[]]]]]]; vm_compute; reflexivity.
  - unfold derived_label_once. vm_compute. lia.
  - exists d, fig. split; [exact Ht|]. split; [exact Ef | exact E].
Defined.

(** ** C4: failure handling in the two scripts *)




(** ** C5: the precession index *)

(** C5: the two scripts derive the precession index by the same function of
    the eccentricity and perihelion series, and in both the value of every
    row of the table is [ECC * sin(deg2rad(OMEGA))]. *)
Theorem precession_index_same_in_both :
  (forall (NP : NumPy) (ecc omega : list float),
      Insolation.precession_index ecc omega =
      Correlation.precession_index ecc omega) /\
  (forall (NP : NumPy) (PD : Pandas) (PY : Python) (read_csv : Frame)
          (d : Insolation.Derived),
      Insolation.transform read_csv = ok d ->
      Insolation.prec_index d =
      map (fun r => (ECC (Insolation.base r)
                     * np_sin (np_deg2rad (OMEGA (Insolation.base r))))%float)
          (Insolation.df d)) /\
  (forall (NP : NumPy) (PD : Pandas) (read_csv : Frame)
          (d : Correlation.Derived),
      Correlation.transform read_csv = ok d ->
      Correlation.prec_index d =
      map (fun r => (ECC r * np_sin (np_deg2rad (OMEGA r)))%float)
          (Correlation.sub d)).
Proof.
  split; [|split].
  - intros NP ecc omega. reflexivity.
  - intros NP PD PY read_csv d Ht.
    destruct (InsolationFacts.transform_ok_inv read_csv d Ht)
      as (_ & rows & _ & _ & Hd).
    destruct Hd as (_ & _ & _ & He & _ & Hp & _).
    rewrite Hp, He. apply InsolationRun.precession_index_rows.
  - intros NP PD read_csv d Ht.
    destruct (CorrelationFacts.corr_transform_cases read_csv)
      as [(c & _ & _ & E)|[(c & _ & _ & E)|(_ & rows & d' & _ & _ & E & Hd)]];
      try (rewrite E in Ht; discriminate).
    rewrite E in Ht. injection Ht as <-.
    destruct Hd as (_ & _ & He & _ & _ & Hp).
    rewrite Hp, He. apply CorrelationFacts.corr_precession_index_rows.
Qed.

(** On the sample table both scripts return, and the row at 130 ka BP gets
    the same precession index in both. *)
Lemma precession_index_same_in_both_witness :
  exists d1 d2,
    @Insolation.transform numpy_reference pandas_reference python_forward
      Sample.table = ok d1 /\
    @Correlation.transform numpy_reference pandas_reference Sample.table
      = ok d2 /\
    Insolation.prec_index d1 =
      map (fun r => (ECC (Insolation.base r)
                     * Reference.sin_poly
                         (Reference.deg2rad (OMEGA (Insolation.base r))))%float)
          (Insolation.df d1) /\
    nth 0 (Insolation.prec_index d1) PrimFloat.nan =
    nth 1 (Correlation.prec_index d2) PrimFloat.nan.
Proof.
  eexists. eexists.
  split; [vm_compute; reflexivity|].
  split; [vm_compute; reflexivity|].
  split; [|vm_compute; reflexivity].
  refine (proj1 (proj2 precession_index_same_in_both)
            numpy_reference pandas_reference python_forward Sample.table _ _).
  vm_compute. reflexivity.
Defined.

(** ** C6: the files written *)

Module OutputFacts.
Import Insolation.

Section InsolationOutput.
Context {NP : NumPy} {PD : Pandas} {PY : Python} {MP : Matplotlib}.

(** A run that ends normally went through the three stages. *)
Lemma run_ok_inv (read_csv : Frame) (d : Derived) (files : Files) :
  run (main read_csv) = ok (d, files) ->
  transform read_csv = ok d /\
  exists fig, draw d = ok fig /\ rendered (saved_as fig) = Some files.
Proof.
  unfold run. rewrite InsolationRun.main_unfold.
  destruct (transform read_csv) as [e|d'] eqn:Et; [discriminate|].
  destruct (draw d') as [e|fig] eqn:Ed; [discriminate|].
  destruct (rendered (saved_as fig)) as [fs|] eqn:Er; [|discriminate].
  unfold ok. simpl. intros H. inversion H; subst; clear H.
  split; [reflexivity|]. exists fig. split; [exact Ed | exact Er].
Qed.

End InsolationOutput.

Section CorrelationOutput.
Context {NP : NumPy} {PD : Pandas} {MP : Matplotlib}.

Lemma corr_run_ok_inv (read_csv : Frame) (d : Correlation.Derived)
    (files : Files) :
  run (Correlation.main read_csv) = ok (d, files) ->
  Correlation.transform read_csv = ok d /\
  rendered (CorrelationOutput.figures_of d) = Some files.
Proof.
  unfold run. rewrite CorrelationFacts.corr_main_unfold.
  destruct (Correlation.transform read_csv) as [e|d'] eqn:Et; [discriminate|].
  destruct (rendered (CorrelationOutput.figures_of d')) as [fs|] eqn:Er;
    [|discriminate].
  unfold ok. simpl. intros H. inversion H; subst; clear H.
  split; [reflexivity | exact Er].
Qed.

(** [scatter_plot] saves the figure it builds twice, or raises. *)
Lemma scatter_plot_unfold (x y age_b2k : list float) (out_base : string)
    (w : Files) :
  Correlation.scatter_plot x y age_b2k out_base w =
  match rendered
          [ (lit out_base ++ lit ".jpg",
             CorrelationOutput.figure_of x y age_b2k);
            (lit out_base ++ lit ".svg",
             CorrelationOutput.figure_of x y age_b2k) ] with
  | None => inl SavefigError
  | Some files => inr (tt, w ++ files)
  end.
Proof.
  unfold Correlation.scatter_plot, Correlation.export_figure, sbind, savefig,
    CorrelationOutput.figure_of.
  simpl.
  destruct (print_figure (lit out_base ++ lit ".jpg") _) as [b1|];
    [|reflexivity].
  destruct (print_figure (lit out_base ++ lit ".svg") _) as [b2|];
    [|reflexivity].
  rewrite <- app_assoc. reflexivity.
Qed.

End CorrelationOutput.

End OutputFacts.

(** C6: a run of the insolation script that ends normally has drawn one
    figure from its derived variables and has written exactly two files,
    [insolation_vs_age_orbital_extrema.jpg] and [.svg], both from that
    figure, each holding what matplotlib printed for it.  A run of the
    correlation script that ends normally has written exactly six: for each
    of [corr_insolation_vs_ecc], [corr_insolation_vs_obliquity] and
    [corr_insolation_vs_precession_index], in that order, a [.jpg] and a
    [.svg] from the one figure [scatter_plot] built for it (insolation
    against eccentricity, scaled obliquity and precession index).  Each
    [scatter_plot] call saves its figure under its base name in both
    formats, or raises. *)
Theorem figures_saved_as_jpg_and_svg :
  (forall (NP : NumPy) (PD : Pandas) (PY : Python) (MP : Matplotlib)
          (read_csv : Frame) (d : Insolation.Derived) (files : Files),
      run (Insolation.main read_csv) = ok (d, files) ->
      Insolation.transform read_csv = ok d /\
      exists fig,
        Insolation.draw d = ok fig /\
        map file_name files =
          [ lit "insolation_vs_age_orbital_extrema.jpg";
            lit "insolation_vs_age_orbital_extrema.svg" ] /\
        map file_figure files = [fig; fig] /\
        Forall (fun f => print_figure (file_name f) (file_figure f)
                         = Some (file_bytes f)) files) /\
  (forall (NP : NumPy) (PD : Pandas) (MP : Matplotlib) (read_csv : Frame)
          (d : Correlation.Derived) (files : Files),
      run (Correlation.main read_csv) = ok (d, files) ->
      Correlation.transform read_csv = ok d /\
      map file_name files =
        [ lit "corr_insolation_vs_ecc.jpg";
          lit "corr_insolation_vs_ecc.svg";
          lit "corr_insolation_vs_obliquity.jpg";
          lit "corr_insolation_vs_obliquity.svg";
          lit "corr_insolation_vs_precession_index.jpg";
          lit "corr_insolation_vs_precession_index.svg" ] /\
      (let fig1 := CorrelationOutput.figure_of
                     (Correlation.ecc d) (Correlation.insol d)
                     (Correlation.age_b2k d) in
       let fig2 := CorrelationOutput.figure_of
                     (Correlation.obl d) (Correlation.insol d)
                     (Correlation.age_b2k d) in
       let fig3 := CorrelationOutput.figure_of
                     (Correlation.prec_index d) (Correlation.insol d)
                     (Correlation.age_b2k d) in
       map file_figure files = [fig1; fig1; fig2; fig2; fig3; fig3]) /\
      Forall (fun f => print_figure (file_name f) (file_figure f)
                       = Some (file_bytes f)) files) /\
  (forall (MP : Matplotlib) (x y age_b2k : list float) (out_base : string)
          (before : Files),
      let fig := mkFigure [] [mkLayer [] x y age_b2k] in
      (forall after,
          Correlation.scatter_plot x y age_b2k out_base before
          = ok (tt, after) ->
          exists jpg svg,
            after = before ++ [ mkFile (lit out_base ++ lit ".jpg") fig jpg;
                                mkFile (lit out_base ++ lit ".svg") fig svg ] /\
            print_figure (lit out_base ++ lit ".jpg") fig = Some jpg /\
            print_figure (lit out_base ++ lit ".svg") fig = Some svg) /\
      (forall e,
          Correlation.scatter_plot x y age_b2k out_base before = raise e ->
          e = SavefigError)).
Proof.
  split; [|split].
  - intros NP PD PY MP read_csv d files Hrun.
    destruct (OutputFacts.run_ok_inv read_csv d files Hrun)
      as (Ht & fig & Ed & Er).
    split; [exact Ht|]. exists fig. split; [exact Ed|].
    destruct (RenderFacts.rendered_spec _ _ Er) as (Hn & Hf & Hb).
    split; [rewrite Hn; reflexivity|].
    split; [rewrite Hf; reflexivity | exact Hb].
  - intros NP PD MP read_csv d files Hrun.
    destruct (OutputFacts.corr_run_ok_inv read_csv d files Hrun) as (Ht & Er).
    split; [exact Ht|].
    destruct (RenderFacts.rendered_spec _ _ Er) as (Hn & Hf & Hb).
    split; [rewrite Hn; reflexivity|].
    split; [cbv zeta; rewrite Hf; reflexivity | exact Hb].
  - intros MP x y age_b2k out_base before fig. split.
    + intros after H. rewrite OutputFacts.scatter_plot_unfold in H.
      fold fig in H. unfold CorrelationOutput.figure_of in H. fold fig in H.
      simpl in H.
      destruct (print_figure (lit out_base ++ lit ".jpg") fig) as [jpg|];
        [|discriminate].
      destruct (print_figure (lit out_base ++ lit ".svg") fig) as [svg|];
        [|discriminate].
      unfold ok in H. inversion H; subst; clear H.
      exists jpg, svg. auto.
    + intros e H. rewrite OutputFacts.scatter_plot_unfold in H.
      destruct (rendered _); unfold raise in H; [discriminate|].
      inversion H. reflexivity.
Qed.

(** Both scripts end normally on the sample table, with the two and with
    the six files. *)
Lemma figures_saved_as_jpg_and_svg_witness :
  (exists d files,
      run (@Insolation.main numpy_reference pandas_reference python_forward
             matplotlib_reference Sample.table) = ok (d, files) /\
      map file_name files =
        [ lit "insolation_vs_age_orbital_extrema.jpg";
          lit "insolation_vs_age_orbital_extrema.svg" ] /\
      exists fig, Insolation.draw d = ok fig /\
                  map file_figure files = [fig; fig]) /\
  (exists d files,
      run (@Correlation.main numpy_reference pandas_reference
             matplotlib_reference Sample.table) = ok (d, files) /\
      map file_name files =
        [ lit "corr_insolation_vs_ecc.jpg";
          lit "corr_insolation_vs_ecc.svg";
          lit "corr_insolation_vs_obliquity.jpg";
          lit "corr_insolation_vs_obliquity.svg";
          lit "corr_insolation_vs_precession_index.jpg";
          lit "corr_insolation_vs_precession_index.svg" ]).
Proof.
  split.
  - eassert (H : run (@Insolation.main numpy_reference pandas_reference
                        python_forward matplotlib_reference Sample.table)
                 = ok (_, _)) by (vm_compute; reflexivity).
    destruct (proj1 figures_saved_as_jpg_and_svg _ _ _ _ _ _ _ H)
      as (_ & fig & Ed & Hn & Hf & _).
    eexists. eexists. split; [exact H|]. split; [exact Hn|].
    exists fig. split; [exact Ed | exact Hf].
  - eassert (H : run (@Correlation.main numpy_reference pandas_reference
                        matplotlib_reference Sample.table)
                 = ok (_, _)) by (vm_compute; reflexivity).
    destruct (proj1 (proj2 figures_saved_as_jpg_and_svg) _ _ _ _ _ _ H)
      as (_ & Hn & _).
    eexists. eexists. split; [exact H | exact Hn].
Defined.

(** ** C7: what a run depends on *)

Module DeterminismFacts.
Import Insolation InsolationFacts.

Section TwoRuns.
Context {NP : NumPy} {PD : Pandas} (PY1 PY2 : Python) (MP1 MP2 : Matplotlib).

Lemma missing_perm (df : Frame) :
  Permutation (@missing PD PY1 df) (@missing PD PY2 df).
Proof.
  apply NoDup_Permutation;
    [apply (@missing_NoDup PD PY1) | apply (@missing_NoDup PD PY2) |].
  intros c. rewrite (@missing_In PD PY1), (@missing_In PD PY2). reflexivity.
Qed.

Lemma missing_nil_both (df : Frame) :
  @missing PD PY1 df = [] <-> @missing PD PY2 df = [].
Proof.
  rewrite (@missing_nil PD PY1), (@missing_nil PD PY2). reflexivity.
Qed.

Lemma check_columns_both (df : Frame) :
  @check_columns PD PY1 df = ok tt -> @check_columns PD PY2 df = ok tt.
Proof.
  intros H.
  destruct (@check_columns_cases PD PY1 df) as [[Hm _]|[_ E]];
    [|rewrite E in H; discriminate].
  destruct (@check_columns_cases PD PY2 df) as [[_ E]|[Hm2 _]];
    [exact E|].
  exfalso. apply Hm2. apply missing_nil_both. exact Hm.
Qed.

(** The set order reaches the transform stage through the header check
    only. *)
Lemma transform_both (read_csv : Frame) (d : Derived) :
  @transform NP PD PY1 read_csv = ok d -> @transform NP PD PY2 read_csv = ok d.
Proof.
  unfold transform.
  destruct (@check_columns_cases PD PY1 (robust_read_table read_csv))
    as [[_ E]|[_ E]]; rewrite E; [|discriminate].
  rewrite (check_columns_both _ E). intros H. exact H.
Qed.

Lemma transform_raise_both (read_csv : Frame) (e1 : exn) :
  @transform NP PD PY1 read_csv = raise e1 ->
  exists e2, @transform NP PD PY2 read_csv = raise e2 /\
             same_up_to_order e1 e2.
Proof.
  intros H1.
  destruct (@transform_cases NP PD PY1 read_csv)
    as [[Hm1 E1]|[(Hm1 & (c1 & Hc1 & Ho1) & E1)
                 |(Hall1 & rows & d & _ & _ & E1 & _)]];
    rewrite E1 in H1; try discriminate H1; injection H1 as <-;
    destruct (@transform_cases NP PD PY2 read_csv)
      as [[Hm2 E2]|[(Hm2 & (c2 & Hc2 & Ho2) & E2)|(Hall2 & _)]].
  - exists (ValueError_missing
              (@missing PD PY2 (robust_read_table read_csv))
              (columns (robust_read_table read_csv))).
    split; [exact E2|]. simpl. split; [apply missing_perm | reflexivity].
  - exfalso. apply Hm1. apply missing_nil_both. exact Hm2.
  - exfalso. apply Hm1. apply (@missing_nil PD PY1). intros c Hc.
    apply TableFacts.occurrences_pos. rewrite (Hall2 c Hc). lia.
  - exfalso. apply Hm2. apply missing_nil_both. exact Hm1.
  - exists TypeError_to_numeric. split; [exact E2 | reflexivity].
  - exfalso. specialize (Hall2 c1 Hc1). lia.
Qed.

(** Two runs that end normally have drawn the same figure and passed it to
    [savefig] under the same names. *)
Lemma main_both (read_csv : Frame) (d1 d2 : Derived) (files1 files2 : Files) :
  run (@main NP PD PY1 MP1 read_csv) = ok (d1, files1) ->
  run (@main NP PD PY2 MP2 read_csv) = ok (d2, files2) ->
  d2 = d1 /\
  map file_name files2 = map file_name files1 /\
  map file_figure files2 = map file_figure files1.
Proof.
  intros H1 H2.
  destruct (@OutputFacts.run_ok_inv NP PD PY1 MP1 read_csv d1 files1 H1)
    as (Ht1 & fig1 & Ed1 & Er1).
  destruct (@OutputFacts.run_ok_inv NP PD PY2 MP2 read_csv d2 files2 H2)
    as (Ht2 & fig2 & Ed2 & Er2).
  apply transform_both in Ht1. rewrite Ht1 in Ht2.
  unfold ok in Ht2. injection Ht2 as <-.
  rewrite Ed1 in Ed2. unfold ok in Ed2. injection Ed2 as <-.
  destruct (@RenderFacts.rendered_spec MP1 _ _ Er1) as (Hn1 & Hf1 & _).
  destruct (@RenderFacts.rendered_spec MP2 _ _ Er2) as (Hn2 & Hf2 & _).
  split; [reflexivity|].
  split; [rewrite Hn1, Hn2 | rewrite Hf1, Hf2]; reflexivity.
Qed.

Lemma corr_main_both (read_csv : Frame) (d1 d2 : Correlation.Derived)
    (files1 files2 : Files) :
  run (@Correlation.main NP PD MP1 read_csv) = ok (d1, files1) ->
  run (@Correlation.main NP PD MP2 read_csv) = ok (d2, files2) ->
  d2 = d1 /\
  map file_name files2 = map file_name files1 /\
  map file_figure files2 = map file_figure files1.
Proof.
  intros H1 H2.
  destruct (@OutputFacts.corr_run_ok_inv NP PD MP1 read_csv d1 files1 H1)
    as (Ht1 & Er1).
  destruct (@OutputFacts.corr_run_ok_inv NP PD MP2 read_csv d2 files2 H2)
    as (Ht2 & Er2).
  rewrite Ht1 in Ht2. unfold ok in Ht2. injection Ht2 as <-.
  destruct (@RenderFacts.rendered_spec MP1 _ _ Er1) as (Hn1 & Hf1 & _).
  destruct (@RenderFacts.rendered_spec MP2 _ _ Er2) as (Hn2 & Hf2 & _).
  split; [reflexivity|].
  split; [rewrite Hn1, Hn2 | rewrite Hf1, Hf2]; reflexivity.
Qed.

End TwoRuns.

End DeterminismFacts.

(** C7, as the claim states it, fails: not every output of a run is fixed
    by the input table.  With two columns missing, the error lists them in
    the order the set [needed] is iterated, which the table does not fix;
    and two runs that end normally on one table, on two dates, write [.svg]
    files that differ. *)
Lemma outputs_not_fixed_by_the_table :
  run (@Insolation.main numpy_reference pandas_reference python_forward
         matplotlib_reference Sample.short_table)
  = raise (ValueError_missing [lit "ECC"; lit "OBL"]
                              [lit "Age"; lit "OMEGA"; lit "EXI"]) /\
  run (@Insolation.main numpy_reference pandas_reference python_backward
         matplotlib_reference Sample.short_table)
  = raise (ValueError_missing [lit "OBL"; lit "ECC"]
                              [lit "Age"; lit "OMEGA"; lit "EXI"]) /\
  (exists d files1 files2,
      run (@Insolation.main numpy_reference pandas_reference python_forward
             (matplotlib_on 20000) Sample.table) = ok (d, files1) /\
      run (@Insolation.main numpy_reference pandas_reference python_forward
             (matplotlib_on 20001) Sample.table) = ok (d, files2) /\
      map file_bytes files1 <> map file_bytes files2).
Proof.
  split; [vm_compute; reflexivity|].
  split; [vm_compute; reflexivity|].
  eexists. eexists. eexists.
  split; [vm_compute; reflexivity|].
  split; [vm_compute; reflexivity|].
  vm_compute. intros H. inversion H.
Qed.

(** C7 (amended): a run keeps no state and reads nothing but the loaded
    table, and the derived table (converted ages, filtered and sorted rows,
    scaled obliquity, precession index, extrema positions) is the same in
    any two runs on the same table: under any two set iteration orders the
    transform stage of the insolation script returns the same variables, or
    raises in both with the same exception up to the order in which the
    header check lists the missing columns.  Two runs of either script that
    end normally, whatever matplotlib writes in each, return the same
    variables and have passed the same figures to [savefig] under the same
    names; the bytes written are matplotlib's and are not claimed equal.
    In both scripts, what was written before the run changes neither the
    result nor the files the run writes. *)
Theorem runs_depend_on_the_table_only :
  (forall (NP : NumPy) (PD : Pandas) (PY1 PY2 : Python) (read_csv : Frame)
          (d : Insolation.Derived),
      @Insolation.transform NP PD PY1 read_csv = ok d ->
      @Insolation.transform NP PD PY2 read_csv = ok d) /\
  (forall (NP : NumPy) (PD : Pandas) (PY1 PY2 : Python) (read_csv : Frame)
          (e1 : exn),
      @Insolation.transform NP PD PY1 read_csv = raise e1 ->
      exists e2, @Insolation.transform NP PD PY2 read_csv = raise e2 /\
                 same_up_to_order e1 e2) /\
  (forall (NP : NumPy) (PD : Pandas) (PY1 PY2 : Python)
          (MP1 MP2 : Matplotlib) (read_csv : Frame)
          (d1 d2 : Insolation.Derived) (files1 files2 : Files),
      run (@Insolation.main NP PD PY1 MP1 read_csv) = ok (d1, files1) ->
      run (@Insolation.main NP PD PY2 MP2 read_csv) = ok (d2, files2) ->
      d2 = d1 /\
      map file_name files2 = map file_name files1 /\
      map file_figure files2 = map file_figure files1) /\
  (forall (NP : NumPy) (PD : Pandas) (MP1 MP2 : Matplotlib)
          (read_csv : Frame)
          (d1 d2 : Correlation.Derived) (files1 files2 : Files),
      run (@Correlation.main NP PD MP1 read_csv) = ok (d1, files1) ->
      run (@Correlation.main NP PD MP2 read_csv) = ok (d2, files2) ->
      d2 = d1 /\
      map file_name files2 = map file_name files1 /\
      map file_figure files2 = map file_figure files1) /\
  (forall (NP : NumPy) (PD : Pandas) (PY : Python) (MP : Matplotlib)
          (read_csv : Frame) (before : Files),
      Insolation.main read_csv before =
      match run (Insolation.main read_csv) with
      | inl e => inl e
      | inr (d, files) => inr (d, before ++ files)
      end) /\
  (forall (NP : NumPy) (PD : Pandas) (MP : Matplotlib) (read_csv : Frame)
          (before : Files),
      Correlation.main read_csv before =
      match run (Correlation.main read_csv) with
      | inl e => inl e
      | inr (d, files) => inr (d, before ++ files)
      end).
Proof.
  split; [|split; [|split; [|split; [|split]]]].
  - intros NP PD PY1 PY2. apply DeterminismFacts.transform_both.
  - intros NP PD PY1 PY2. apply DeterminismFacts.transform_raise_both.
  - intros NP PD PY1 PY2 MP1 MP2. apply DeterminismFacts.main_both.
  - intros NP PD MP1 MP2. apply DeterminismFacts.corr_main_both.
  - intros NP PD PY MP read_csv before. unfold run.
    rewrite !InsolationRun.main_unfold.
    destruct (Insolation.transform read_csv) as [e|d]; [reflexivity|].
    destruct (Insolation.draw d) as [e|fig]; [reflexivity|].
    destruct (rendered (saved_as fig)); reflexivity.
  - intros NP PD MP read_csv before. unfold run.
    rewrite !CorrelationFacts.corr_main_unfold.
    destruct (Correlation.transform read_csv) as [e|d]; [reflexivity|].
    destruct (rendered (CorrelationOutput.figures_of d)); reflexivity.
Qed.

(** On the sample table, runs under the two set orders and on two dates end
    normally with the same variables and the same figures under the same
    names. *)
Lemma runs_depend_on_the_table_only_witness :
  exists d files1 files2,
    run (@Insolation.main numpy_reference pandas_reference python_forward
           (matplotlib_on 20000) Sample.table) = ok (d, files1) /\
    run (@Insolation.main numpy_reference pandas_reference python_backward
           (matplotlib_on 20001) Sample.table) = ok (d, files2) /\
    map file_name files2 = map file_name files1 /\
    map file_figure files2 = map file_figure files1.
Proof.
  eassert (H1 : run (@Insolation.main numpy_reference pandas_reference
                       python_forward (matplotlib_on 20000) Sample.table)
                = ok (_, _)) by (vm_compute; reflexivity).
  eassert (H2 : run (@Insolation.main numpy_reference pandas_reference
                       python_backward (matplotlib_on 20001) Sample.table)
                = ok (_, _)) by (vm_compute; reflexivity).
  destruct (proj1 (proj2 (proj2 runs_depend_on_the_table_only))
              _ _ _ _ _ _ _ _ _ _ _ H1 H2) as (Hd & Hn & Hf).
  eexists. eexists. eexists.
  split; [exact H1|]. split; [exact H2|].
  split; [exact Hn | exact Hf].
Defined.

(** ** C8: the obliquity scale *)

(** C8: the obliquity series is rescaled as a whole.  If the maximum of the
    raw column exceeds 100, which is the case exactly when some value of the
    column does, every value is divided by 1000; otherwise the series is the
    raw column.  Both scripts apply this to the OBL column of their
    filtered, sorted table. *)
Theorem obliquity_scaled_as_a_whole :
  (forall obl_raw : list float,
      (F64.gt (series_max obl_raw) 100 = true /\
       scale_obl obl_raw = map (fun x => (x / 1000)%float) obl_raw) \/
      (F64.gt (series_max obl_raw) 100 = false /\
       scale_obl obl_raw = obl_raw)) /\
  (forall obl_raw : list float,
      F64.gt (series_max obl_raw) 100 = true <->
      exists x, In x obl_raw /\ F64.gt x 100 = true) /\
  (forall (obl_raw : list float) (i : nat),
      i < length obl_raw ->
      nth i (scale_obl obl_raw) PrimFloat.nan =
      if F64.gt (series_max obl_raw) 100
      then (nth i obl_raw PrimFloat.nan / 1000)%float
      else nth i obl_raw PrimFloat.nan) /\
  (forall (NP : NumPy) (PD : Pandas) (PY : Python) (read_csv : Frame)
          (d : Insolation.Derived),
      Insolation.transform read_csv = ok d ->
      Insolation.obl d =
      scale_obl (map (fun r => OBL (Insolation.base r)) (Insolation.df d))) /\
  (forall (NP : NumPy) (PD : Pandas) (read_csv : Frame)
          (d : Correlation.Derived),
      Correlation.transform read_csv = ok d ->
      Correlation.obl d = scale_obl (map OBL (Correlation.sub d))).
Proof.
  split; [|split; [|split; [|split]]].
  - intros obl_raw. unfold scale_obl.
    destruct (F64.gt (series_max obl_raw) 100); [left | right];
      split; reflexivity.
  - intros obl_raw. apply SeriesMaxFacts.series_max_gt.
  - intros obl_raw i Hi. unfold scale_obl.
    destruct (F64.gt (series_max obl_raw) 100); [|reflexivity].
    rewrite (nth_indep _ PrimFloat.nan (PrimFloat.nan / 1000)%float)
      by (rewrite length_map; exact Hi).
    apply (map_nth (fun x => (x / 1000)%float)).
  - intros NP PD PY read_csv d Ht.
    destruct (InsolationFacts.transform_ok_inv read_csv d Ht)
      as (_ & rows & _ & _ & Hd).
    destruct Hd as (_ & _ & _ & _ & Ho & _). exact Ho.
  - intros NP PD read_csv d Ht.
    destruct (CorrelationFacts.corr_transform_cases read_csv)
      as [(c & _ & _ & E)|[(c & _ & _ & E)|(_ & rows & d' & _ & _ & E & Hd)]];
      try (rewrite E in Ht; discriminate).
    rewrite E in Ht. injection Ht as <-.
    destruct Hd as (_ & _ & _ & _ & Ho & _). exact Ho.
Qed.

(** Thousandths of a degree are divided, degrees are kept, and one large
    value makes the whole series divided. *)
Example scale_obl_samples :
  scale_obl [22340; 24582; 23000]%float
  = [0x1.6570a3d70a3d7p+4; 0x1.894fdf3b645a2p+4; 23]%float /\
  scale_obl [22.5; 24.5; 23]%float = [22.5; 24.5; 23]%float /\
  scale_obl [62.5; 24500; 31.25]%float = [0.0625; 24.5; 0.03125]%float /\
  scale_obl [] = [].
Proof. vm_compute. repeat split; reflexivity. Qed.

(** On the sample table, whose obliquity is in thousandths of a degree, the
    insolation script divides. *)
Lemma obliquity_scaled_as_a_whole_witness :
  exists d,
    @Insolation.transform numpy_reference pandas_reference python_forward
      Sample.table = ok d /\
    Insolation.obl d =
      scale_obl (map (fun r => OBL (Insolation.base r)) (Insolation.df d)) /\
    Insolation.obl d = [22.5; 24.5; 23.5; 23; 22; 24]%float.
Proof.
  eexists. split; [vm_compute; reflexivity|].
  split; [|vm_compute; reflexivity].
  refine (proj1 (proj2 (proj2 (proj2 obliquity_scaled_as_a_whole)))
            numpy_reference pandas_reference python_forward Sample.table _ _).
  vm_compute. reflexivity.
Defined.

(** ** C9: the table before plotting *)

(** C9: after the transform stage the table of the insolation script is in
    ascending order of [Age_yr_b2k], every age lies in [128000, 220000] and
    no row has a NaN in [Age_yr_b2k], EXI, ECC, OBL or OMEGA; the table of
    the correlation script is in ascending order of [Age] and every age
    lies in the window of its filter, [115 - SHIFT_KA, 250 - SHIFT_KA] ka
    BP.  Extrema lookup and plotting change nothing: the variables a run
    ends with are those the transform stage returned. *)
Theorem table_sorted_and_in_window :
  (forall (NP : NumPy) (PD : Pandas) (PY : Python) (read_csv : Frame)
          (d : Insolation.Derived),
      Insolation.transform read_csv = ok d ->
      StronglySorted
        (fun a b => (Insolation.Age_yr_b2k a <=? Insolation.Age_yr_b2k b)%float
                    = true)
        (Insolation.df d) /\
      Forall (fun r => (128000 <=? Insolation.Age_yr_b2k r)%float = true /\
                       (Insolation.Age_yr_b2k r <=? 220000)%float = true)
             (Insolation.df d) /\
      Forall complete (Insolation.df d)) /\
  (forall (NP : NumPy) (PD : Pandas) (PY : Python) (MP : Matplotlib)
          (read_csv : Frame) (d : Insolation.Derived) (files : Files),
      run (Insolation.main read_csv) = ok (d, files) ->
      Insolation.transform read_csv = ok d) /\
  (forall (NP : NumPy) (PD : Pandas) (read_csv : Frame)
          (d : Correlation.Derived),
      Correlation.transform read_csv = ok d ->
      StronglySorted (fun a b => (Age a <=? Age b)%float = true)
                     (Correlation.sub d) /\
      Forall (fun r => (115 - Correlation.SHIFT_KA <=? Age r)%float = true /\
                       (Age r <=? 250 - Correlation.SHIFT_KA)%float = true)
             (Correlation.sub d)) /\
  (forall (NP : NumPy) (PD : Pandas) (MP : Matplotlib) (read_csv : Frame)
          (d : Correlation.Derived) (files : Files),
      run (Correlation.main read_csv) = ok (d, files) ->
      Correlation.transform read_csv = ok d).
Proof.
  split; [|split; [|split]].
  - intros NP PD PY read_csv d Ht.
    destruct (InsolationFacts.transform_ok_inv read_csv d Ht)
      as (_ & rows & _ & _ & Hd).
    destruct Hd as (-> & _).
    split; [apply SelectFacts.select_ascending|].
    split; apply Forall_forall; intros r Hr;
      apply SelectFacts.select_In in Hr; destruct Hr as (_ & Hw & Hn).
    + apply SelectFacts.in_window_bounds. exact Hw.
    + unfold Insolation.has_na in Hn. unfold complete.
      repeat (apply orb_false_iff in Hn; destruct Hn as [Hn ?]).
      repeat split; assumption.
  - intros NP PD PY MP read_csv d files Hrun.
    exact (proj1 (OutputFacts.run_ok_inv read_csv d files Hrun)).
  - intros NP PD read_csv d Ht.
    destruct (CorrelationFacts.corr_transform_cases read_csv)
      as [(c & _ & _ & E)|[(c & _ & _ & E)|(_ & rows & d' & _ & _ & E & Hd)]];
      try (rewrite E in Ht; discriminate).
    rewrite E in Ht. injection Ht as <-.
    destruct Hd as (-> & _).
    split; [apply SelectFacts.select_ascending_corr|].
    apply Forall_forall. intros r Hr.
    apply SelectFacts.select_In_corr in Hr. destruct Hr as [_ Hw].
    unfold Correlation.in_window in Hw. apply andb_true_iff in Hw. exact Hw.
  - intros NP PD MP read_csv d files Hrun.
    exact (proj1 (OutputFacts.corr_run_ok_inv read_csv d files Hrun)).
Qed.

(** On the sample table six of the nine rows remain, in ascending order of
    age. *)
Lemma table_sorted_and_in_window_witness :
  exists d,
    @Insolation.transform numpy_reference pandas_reference python_forward
      Sample.table = ok d /\
    Insolation.age d
    = [130050; 140050; 150050; 160050; 170050; 180050]%float /\
    StronglySorted
      (fun a b => (Insolation.Age_yr_b2k a <=? Insolation.Age_yr_b2k b)%float
                  = true)
      (Insolation.df d).
Proof.
  eexists. split; [vm_compute; reflexivity|].
  split; [vm_compute; reflexivity|].
  refine (proj1 (proj1 table_sorted_and_in_window
                   numpy_reference pandas_reference python_forward
                   Sample.table _ _)).
  vm_compute. reflexivity.
Defined.

(** ** C10: header normalization *)


(** The noisy header of the sample table normalizes to the five plain
    names; a second pass changes nothing. *)
Example norm_col_sample :
  map (fun c => Insolation.norm_col (Some c)) Sample.noisy_header
  = Sample.header /\
  Insolation.norm_col (Some (lit "  Age of  ice ")) = lit "Age of  ice" /\
  Insolation.norm_col (Some [NBSP; BOM; SPACE]) = [].
Proof. vm_compute. repeat split; reflexivity. Qed.

(* ================================================================== *)
(** * Part IV: further properties of the code                          *)
(* ================================================================== *)

(** ** More on binary64 values *)

Module F64More.

Lemma ltb_asym (a b : float) :
  PrimFloat.ltb a b = true -> PrimFloat.ltb b a = false.
Proof.
  rewrite !ltb_spec. unfold SFltb.
  destruct (SFcompare (Prim2SF a) (Prim2SF b)) as [c|] eqn:E; [|discriminate].
  rewrite (F64Facts.SFcompare_antisym _ _ _ E).
  destruct c; simpl; congruence.
Qed.

Lemma leb_antisym_eqb (a b : float) :
  PrimFloat.leb a b = true -> PrimFloat.leb b a = true ->
  PrimFloat.eqb a b = true.
Proof.
  rewrite !leb_spec, eqb_spec. unfold SFleb, SFeqb.
  destruct (SFcompare (Prim2SF a) (Prim2SF b)) as [c|] eqn:E; [|discriminate].
  rewrite (F64Facts.SFcompare_antisym _ _ _ E).
  destruct c; simpl; congruence.
Qed.

Lemma ltb_nan_l (a b : float) :
  PrimFloat.is_nan a = true -> PrimFloat.ltb a b = false.
Proof.
  intros H. destruct (PrimFloat.ltb a b) eqn:E; [|reflexivity].
  apply F64Facts.ltb_not_nan in E. destruct E as [E _]. congruence.
Qed.

Lemma ltb_nan_r (a b : float) :
  PrimFloat.is_nan b = true -> PrimFloat.ltb a b = false.
Proof.
  intros H. destruct (PrimFloat.ltb a b) eqn:E; [|reflexivity].
  apply F64Facts.ltb_not_nan in E. destruct E as [_ E]. congruence.
Qed.

Lemma leb_nan_l (a b : float) :
  PrimFloat.is_nan a = true -> PrimFloat.leb a b = false.
Proof.
  intros H. destruct (PrimFloat.leb a b) eqn:E; [|reflexivity].
  apply F64Facts.leb_not_nan in E. destruct E as [E _]. congruence.
Qed.

Lemma leb_nan_r (a b : float) :
  PrimFloat.is_nan b = true -> PrimFloat.leb a b = false.
Proof.
  intros H. destruct (PrimFloat.leb a b) eqn:E; [|reflexivity].
  apply F64Facts.leb_not_nan in E. destruct E as [_ E]. congruence.
Qed.

(** NaN goes through a product and through a sum. *)
Lemma mul_nan_l (a b : float) :
  PrimFloat.is_nan a = true -> PrimFloat.is_nan (PrimFloat.mul a b) = true.
Proof.
  rewrite !F64Facts.is_nan_spec, mul_spec. intros ->. reflexivity.
Qed.

Lemma add_nan_l (a b : float) :
  PrimFloat.is_nan a = true -> PrimFloat.is_nan (PrimFloat.add a b) = true.
Proof.
  rewrite !F64Facts.is_nan_spec, add_spec. intros ->. reflexivity.
Qed.

End F64More.

(** ** More on [get_extrema_idx] *)

Module ExtremaMore.
Import SciPy SciPyFacts.

Lemma nonzero_from_ascending (k : nat) (results : list bool) :
  StronglySorted lt (nonzero_from k results) /\
  Forall (fun i => k <= i) (nonzero_from k results).
Proof.
  revert k. induction results as [|b t IH]; intros k; simpl.
  - split; constructor.
  - destruct (IH (S k)) as [Hs Hf].
    assert (Hf' : Forall (fun i => k <= i) (nonzero_from (S k) t)).
    { eapply Forall_impl; [|exact Hf]. simpl. intros i Hi. lia. }
    destruct b; [|split; assumption].
    split; constructor; try assumption; try lia.
Qed.

(** A window given as an integer of at least 1, as a natural number. *)
Lemma get_extrema_idx_In_Z (series : list float) (order : Z)
    (max_idx min_idx : list nat) :
  (1 <= order)%Z ->
  get_extrema_idx series order = ok (max_idx, min_idx) ->
  (forall i, In i max_idx <->
             interior series i /\
             beats_neighbours F64.gt series (Z.to_nat order) i) /\
  (forall i, In i min_idx <->
             interior series i /\
             beats_neighbours F64.lt series (Z.to_nat order) i).
Proof.
  intros Ho E.
  destruct (ExtremaFacts.get_extrema_idx_In series (Z.to_nat order))
    as (mx & mn & E' & Hmx & Hmn); [lia|].
  rewrite Z2Nat.id in E' by lia. rewrite E in E'. injection E' as <- <-.
  split; assumption.
Qed.

Lemma get_extrema_idx_ascending (series : list float) (order : Z)
    (max_idx min_idx : list nat) :
  get_extrema_idx series order = ok (max_idx, min_idx) ->
  StronglySorted lt max_idx /\ StronglySorted lt min_idx.
Proof.
  unfold get_extrema_idx, argrelextrema.
  destruct (boolrelextrema F64.gt series order) as [e|r1]; [discriminate|].
  destruct (boolrelextrema F64.lt series order) as [e|r2]; [discriminate|].
  simpl. intros [= <- <-].
  split; apply nonzero_from_ascending.
Qed.

Lemma no_elements {A : Type} (l : list A) :
  (forall x, ~ In x l) -> l = [].
Proof.
  destruct l as [|x l]; [reflexivity|].
  intros H. exfalso. apply (H x). left. reflexivity.
Qed.

End ExtremaMore.

(** X1: [get_extrema_idx] raises scipy's "Order must be an int >= 1" for
    every window below 1; with a window of at least 1 it returns, and on a
    series of fewer than three values it returns no position at all. *)
Theorem get_extrema_idx_edge_cases :
  (forall (series : list float) (order : Z),
      (order < 1)%Z -> get_extrema_idx series order = raise ValueError_order) /\
  (forall (series : list float) (order : Z),
      (1 <= order)%Z ->
      exists max_idx min_idx,
        get_extrema_idx series order = ok (max_idx, min_idx)) /\
  (forall (series : list float) (order : Z),
      (1 <= order)%Z -> length series <= 2 ->
      get_extrema_idx series order = ok ([], [])).
Proof.
  assert (Hret : forall (series : list float) (order : Z),
             (1 <= order)%Z ->
             exists max_idx min_idx,
               get_extrema_idx series order = ok (max_idx, min_idx)).
  { intros series order Ho.
    destruct (ExtremaFacts.get_extrema_idx_In series (Z.to_nat order))
      as (mx & mn & E & _); [lia|].
    rewrite Z2Nat.id in E by lia. eauto. }
  split; [|split].
  - intros series order Ho. unfold get_extrema_idx, SciPy.argrelextrema,
      SciPy.boolrelextrema.
    destruct (Z.ltb_spec order 1) as [_|H]; [reflexivity | lia].
  - exact Hret.
  - intros series order Ho Hlen.
    destruct (Hret series order Ho) as (mx & mn & E).
    destruct (ExtremaMore.get_extrema_idx_In_Z series order mx mn Ho E)
      as [Hmx Hmn].
    rewrite E. f_equal. f_equal.
    + apply ExtremaMore.no_elements. intros i Hi. apply Hmx in Hi.
      destruct Hi as [[H0 H1] _]. lia.
    + apply ExtremaMore.no_elements. intros i Hi. apply Hmn in Hi.
      destruct Hi as [[H0 H1] _]. lia.
Qed.

Lemma get_extrema_idx_edge_cases_witness :
  get_extrema_idx Sample.falling 0 = raise ValueError_order /\
  get_extrema_idx [3; 7]%float 3 = ok ([], []).
Proof.
  split.
  - apply (proj1 get_extrema_idx_edge_cases). lia.
  - apply (proj2 (proj2 get_extrema_idx_edge_cases)); simpl; lia.
Defined.

(** X2: a larger window gives fewer points (the comment of lines 28-29):
    every position returned with window [order2] is returned with every
    smaller window [order1 >= 1], among the maxima and among the minima. *)
Theorem larger_order_fewer_extrema :
  forall (series : list float) (order1 order2 : Z)
         (max1 min1 max2 min2 : list nat),
    (1 <= order1 <= order2)%Z ->
    get_extrema_idx series order1 = ok (max1, min1) ->
    get_extrema_idx series order2 = ok (max2, min2) ->
    incl max2 max1 /\ incl min2 min1.
Proof.
  intros series order1 order2 max1 min1 max2 min2 Ho E1 E2.
  destruct (ExtremaMore.get_extrema_idx_In_Z series order1 max1 min1) as [Hx1 Hn1];
    [lia | exact E1 |].
  destruct (ExtremaMore.get_extrema_idx_In_Z series order2 max2 min2) as [Hx2 Hn2];
    [lia | exact E2 |].
  assert (Hmono : forall cmp i,
             beats_neighbours cmp series (Z.to_nat order2) i ->
             beats_neighbours cmp series (Z.to_nat order1) i).
  { intros cmp i [Hi Hb]. split; [exact Hi|].
    intros j Hj (Hne & Hl & Hr). apply Hb; [exact Hj|].
    unfold neighbour. repeat split; try assumption; lia. }
  split; intros i Hi.
  - apply Hx1. apply Hx2 in Hi. destruct Hi as [Hint Hb].
    split; [exact Hint | apply Hmono; exact Hb].
  - apply Hn1. apply Hn2 in Hi. destruct Hi as [Hint Hb].
    split; [exact Hint | apply Hmono; exact Hb].
Qed.

(** On a series with three peaks a window of 1 returns all of them, a
    window of 3 only the highest. *)
Lemma larger_order_fewer_extrema_witness :
  let series := [1; 3; 2; 5; 4; 2.5; 3.5; 1]%float in
  get_extrema_idx series 1 = ok ([1; 3; 6], [2; 5]) /\
  get_extrema_idx series 3 = ok ([3], []) /\
  incl [3] [1; 3; 6] /\ incl (@nil nat) [2; 5].
Proof.
  split; [vm_compute; reflexivity|].
  split; [vm_compute; reflexivity|].
  apply (larger_order_fewer_extrema [1; 3; 2; 5; 4; 2.5; 3.5; 1]%float 1 3);
    [lia | vm_compute; reflexivity | vm_compute; reflexivity].
Defined.

(** X3: the positions [get_extrema_idx] returns are in ascending order,
    each once; two maxima are more than [order] positions apart, and so are
    two minima; no position is both a maximum and a minimum. *)
Theorem extrema_ascending_spaced_disjoint :
  forall (series : list float) (order : Z) (max_idx min_idx : list nat),
    (1 <= order)%Z ->
    get_extrema_idx series order = ok (max_idx, min_idx) ->
    StronglySorted lt max_idx /\ StronglySorted lt min_idx /\
    (forall i j, In i max_idx -> In j max_idx -> i < j ->
                 (order < Z.of_nat j - Z.of_nat i)%Z) /\
    (forall i j, In i min_idx -> In j min_idx -> i < j ->
                 (order < Z.of_nat j - Z.of_nat i)%Z) /\
    (forall i, ~ (In i max_idx /\ In i min_idx)).
Proof.
  intros series order max_idx min_idx Ho E.
  destruct (ExtremaMore.get_extrema_idx_In_Z series order max_idx min_idx Ho E)
    as [Hmx Hmn].
  destruct (ExtremaMore.get_extrema_idx_ascending series order max_idx min_idx E)
    as [Sx Sn].
  assert (Hfar : forall cmp (idx : list nat),
             (forall a b, cmp a b = true -> cmp b a = false) ->
             (forall i, In i idx ->
                        beats_neighbours cmp series (Z.to_nat order) i) ->
             forall i j, In i idx -> In j idx -> i < j ->
                         (order < Z.of_nat j - Z.of_nat i)%Z).
  { intros cmp idx Hasym Hb i j Hi Hj Hlt.
    destruct (Z.lt_ge_cases order (Z.of_nat j - Z.of_nat i)) as [H|H];
      [exact H|]. exfalso.
    destruct (Hb i Hi) as [Hli Hbi]. destruct (Hb j Hj) as [Hlj Hbj].
    assert (Hij : cmp (nth i series PrimFloat.nan) (nth j series PrimFloat.nan)
                  = true)
      by (apply Hbi; [exact Hlj | unfold neighbour; lia]).
    assert (Hji : cmp (nth j series PrimFloat.nan) (nth i series PrimFloat.nan)
                  = true)
      by (apply Hbj; [exact Hli | unfold neighbour; lia]).
    rewrite (Hasym _ _ Hij) in Hji. discriminate. }
  split; [exact Sx|]. split; [exact Sn|].
  split; [|split].
  - apply (Hfar F64.gt).
    + intros a b. unfold F64.gt. apply F64More.ltb_asym.
    + intros i Hi. apply Hmx in Hi. tauto.
  - apply (Hfar F64.lt).
    + intros a b. unfold F64.lt. apply F64More.ltb_asym.
    + intros i Hi. apply Hmn in Hi. tauto.
  - intros i [Hx Hn]. apply Hmx in Hx. apply Hmn in Hn.
    destruct Hx as [[H0 H1] [_ Hg]]. destruct Hn as [_ [_ Hl]].
    assert (Hnb : neighbour (Z.to_nat order) i (S i))
      by (unfold neighbour; lia).
    specialize (Hg (S i) H1 Hnb). specialize (Hl (S i) H1 Hnb).
    unfold F64.gt in Hg. unfold F64.lt in Hl.
    rewrite (F64More.ltb_asym _ _ Hg) in Hl. discriminate.
Qed.

Lemma extrema_ascending_spaced_disjoint_witness :
  let series := [1; 3; 2; 5; 4; 2.5; 3.5; 1]%float in
  get_extrema_idx series 1 = ok ([1; 3; 6], [2; 5]) /\
  StronglySorted lt [1; 3; 6] /\
  forall i, ~ (In i [1; 3; 6] /\ In i [2; 5]).
Proof.
  split; [vm_compute; reflexivity|].
  destruct (extrema_ascending_spaced_disjoint
              [1; 3; 2; 5; 4; 2.5; 3.5; 1]%float 1 [1; 3; 6] [2; 5])
    as (H1 & _ & _ & _ & H5); [lia | vm_compute; reflexivity |].
  split; assumption.
Defined.

(** X4: a NaN in the series is never an extremum, and it keeps every
    position within [order] of it from being one. *)
Theorem nan_suppresses_extrema :
  forall (series : list float) (order : Z) (max_idx min_idx : list nat)
         (i j : nat),
    (1 <= order)%Z ->
    get_extrema_idx series order = ok (max_idx, min_idx) ->
    j < length series ->
    PrimFloat.is_nan (nth j series PrimFloat.nan) = true ->
    (Z.abs (Z.of_nat i - Z.of_nat j) <= order)%Z ->
    ~ In i max_idx /\ ~ In i min_idx.
Proof.
  intros series order max_idx min_idx i j Ho E Hj Hnan Hd.
  destruct (ExtremaMore.get_extrema_idx_In_Z series order max_idx min_idx Ho E)
    as [Hmx Hmn].
  assert (Hno : forall cmp,
             (forall a b, cmp a b = true ->
                          PrimFloat.is_nan a = false /\
                          PrimFloat.is_nan b = false) ->
             ~ (interior series i /\
                beats_neighbours cmp series (Z.to_nat order) i)).
  { intros cmp Hcmp [[H0 H1] [Hi Hb]].
    destruct (Nat.eq_dec i j) as [->|Hne].
    - assert (Hnb : neighbour (Z.to_nat order) j (S j))
        by (unfold neighbour; lia).
      specialize (Hb (S j) H1 Hnb). apply Hcmp in Hb.
      destruct Hb as [Hb _]. congruence.
    - assert (Hnb : neighbour (Z.to_nat order) i j)
        by (unfold neighbour; lia).
      specialize (Hb j Hj Hnb). apply Hcmp in Hb.
      destruct Hb as [_ Hb]. congruence. }
  split; intros Hin.
  - apply Hmx in Hin. revert Hin. apply Hno.
    intros a b H. unfold F64.gt in H. apply F64Facts.ltb_not_nan in H. tauto.
  - apply Hmn in Hin. revert Hin. apply Hno.
    intros a b H. unfold F64.lt in H. apply F64Facts.ltb_not_nan in H. tauto.
Qed.

(** The peak at position 3 is lost when the value two places further on is
    NaN. *)
Lemma nan_suppresses_extrema_witness :
  let series := [1; 3; 2; 5; 4; PrimFloat.nan; 3.5; 1]%float in
  get_extrema_idx series 3 = ok ([], []) /\
  ~ In 3 (@nil nat) /\ ~ In 3 (@nil nat).
Proof.
  split; [vm_compute; reflexivity|].
  apply (nan_suppresses_extrema
           [1; 3; 2; 5; 4; PrimFloat.nan; 3.5; 1]%float 3 [] [] 3 5);
    [lia | vm_compute; reflexivity | simpl; lia | vm_compute; reflexivity | lia].
Defined.

(** ** The figure of the insolation script *)

Module FigureFacts.
Import Insolation InsolationFacts InsolationRun.


(** [iloc] raises as soon as one position is out of bounds. *)
Lemma iloc_out_of_bounds (s : list float) (idx : list nat) :
  (exists i, In i idx /\ length s <= i) -> iloc s idx = raise IndexError.
Proof.
  induction idx as [|i rest IH]; intros (k & Hk & Hlen); [destruct Hk|].
  simpl. destruct (nth_error s i) as [v|] eqn:E; [|reflexivity].
  destruct Hk as [->|Hk].
  - apply nth_error_None in Hlen. congruence.
  - rewrite IH by eauto. reflexivity.
Qed.



Section Draw.
Context {NP : NumPy} {PD : Pandas} {PY : Python}.


End Draw.


End FigureFacts.



(** ** Rows without a numeric age *)

(** X6: a row whose age is NaN (a cell [to_numeric] could not read) fails
    the window mask of either script, so it never reaches the table; in the
    insolation script the [Age_yr_b2k] entry of the [dropna] subset
    therefore removes nothing the mask has not removed, and every row of
    the final table of either script has a numeric [Age]. *)
Theorem rows_without_age_are_filtered :
  (forall a : float,
      PrimFloat.is_nan a = true ->
      Insolation.in_window (Insolation.to_yr_b2k a) = false /\
      Correlation.in_window a = false) /\
  (forall rows : list Insolation.Aged,
      Insolation.dropna (Insolation.filter_window rows) =
      filter (fun r => negb (PrimFloat.is_nan (EXI (Insolation.base r))
                             || PrimFloat.is_nan (ECC (Insolation.base r))
                             || PrimFloat.is_nan (OBL (Insolation.base r))
                             || PrimFloat.is_nan (OMEGA (Insolation.base r))))
             (Insolation.filter_window rows)) /\
  (forall (NP : NumPy) (PD : Pandas) (PY : Python) (read_csv : Frame)
          (d : Insolation.Derived),
      Insolation.transform read_csv = ok d ->
      Forall (fun r => PrimFloat.is_nan (Age (Insolation.base r)) = false)
             (Insolation.df d)) /\
  (forall (NP : NumPy) (PD : Pandas) (read_csv : Frame)
          (d : Correlation.Derived),
      Correlation.transform read_csv = ok d ->
      Forall (fun r => PrimFloat.is_nan (Age r) = false) (Correlation.sub d)).
Proof.
  assert (Hwin : forall b, Insolation.in_window b = true ->
                           PrimFloat.is_nan b = false).
  { intros b H. apply SelectFacts.in_window_bounds in H. destruct H as [H _].
    apply F64Facts.leb_not_nan in H. tauto. }
  assert (Hconv : forall a, PrimFloat.is_nan a = true ->
                            PrimFloat.is_nan (Insolation.to_yr_b2k a) = true).
  { intros a H. unfold Insolation.to_yr_b2k.
    apply F64More.add_nan_l, F64More.mul_nan_l, H. }
  split; [|split; [|split]].
  - intros a Ha. split.
    + destruct (Insolation.in_window (Insolation.to_yr_b2k a)) eqn:E;
        [|reflexivity].
      apply Hwin in E. rewrite (Hconv a Ha) in E. discriminate.
    + unfold Correlation.in_window, F64.ge, F64.le.
      rewrite (F64More.leb_nan_l a _ Ha). apply andb_false_r.
  - intros rows. unfold Insolation.dropna, Insolation.filter_window.
    induction rows as [|r rows IH]; simpl; [reflexivity|].
    destruct (Insolation.in_window (Insolation.Age_yr_b2k r)) eqn:E;
      [|exact IH].
    simpl. unfold Insolation.has_na at 1. rewrite (Hwin _ E). simpl.
    rewrite IH. reflexivity.
  - intros NP PD PY read_csv d Ht.
    destruct (InsolationFacts.transform_ok_inv read_csv d Ht)
      as (_ & rows & _ & _ & Hd).
    destruct Hd as (-> & _). apply Forall_forall. intros r Hr.
    apply SelectFacts.select_In in Hr. destruct Hr as (Hin & Hw & _).
    unfold Insolation.add_age_yr_b2k in Hin. apply in_map_iff in Hin.
    destruct Hin as (r0 & <- & _). simpl in *.
    destruct (PrimFloat.is_nan (Age r0)) eqn:E; [|reflexivity].
    apply Hwin in Hw. rewrite (Hconv _ E) in Hw. discriminate.
  - intros NP PD read_csv d Ht.
    destruct (CorrelationFacts.corr_transform_cases read_csv)
      as [(c & _ & _ & E)|[(c & _ & _ & E)|(_ & rows & d' & _ & _ & E & Hd)]];
      try (rewrite E in Ht; discriminate).
    rewrite E in Ht. injection Ht as <-.
    destruct Hd as (-> & _). apply Forall_forall. intros r Hr.
    apply SelectFacts.select_In_corr in Hr. destruct Hr as [_ Hw].
    unfold Correlation.in_window, F64.ge in Hw. apply andb_true_iff in Hw.
    destruct Hw as [Hw _]. apply F64Facts.leb_not_nan in Hw. tauto.
Qed.

(** A table whose only row has no readable age gives an empty table and a
    figure without points. *)
Lemma rows_without_age_are_filtered_witness :
  exists d,
    @Insolation.transform numpy_reference pandas_reference python_forward
      (frame_of Sample.header
                [[PrimFloat.nan; 0.03125; 23000; 10; 440]%float]) = ok d /\
    Insolation.df d = [] /\
    Forall (fun r => PrimFloat.is_nan (Age (Insolation.base r)) = false)
           (Insolation.df d).
Proof.
  eexists. split; [vm_compute; reflexivity|]. split; [reflexivity|].
  refine (proj1 (proj2 (proj2 rows_without_age_are_filtered))
            numpy_reference pandas_reference python_forward
            (frame_of Sample.header
                      [[PrimFloat.nan; 0.03125; 23000; 10; 440]%float]) _ _).
  vm_compute. reflexivity.
Defined.

(** ** The two header normalizations *)

Module HeaderFacts.
Import PyStrFacts.

Section MapStrip.
Variable f : char -> char.
Hypothesis f_space : forall c, isspace (f c) = isspace c.

Lemma lstrip_map (s : str) : lstrip (map f s) = map f (lstrip s).
Proof.
  induction s as [|c t IH]; simpl; [reflexivity|].
  rewrite f_space. destruct (isspace c); [exact IH | reflexivity].
Qed.

Lemma rstrip_map (s : str) : rstrip (map f s) = map f (rstrip s).
Proof.
  induction s as [|c t IH]; simpl; [reflexivity|].
  rewrite IH, f_space.
  destruct (rstrip t) as [|y u]; simpl; [|reflexivity].
  destruct (isspace c); reflexivity.
Qed.

Lemma strip_map (s : str) : strip (map f s) = map f (strip s).
Proof. unfold strip. rewrite lstrip_map, rstrip_map. reflexivity. Qed.

End MapStrip.

(** The replacement of line 38, on one character. *)
Definition nbsp_to_space (c : char) : char :=
  if N.eqb c NBSP then SPACE else c.

Lemma nbsp_to_space_isspace (c : char) :
  isspace (nbsp_to_space c) = isspace c.
Proof.
  unfold nbsp_to_space. destruct (N.eqb_spec c NBSP) as [->|_]; reflexivity.
Qed.

Lemma map_nbsp_absent (s : str) :
  ~ In NBSP s -> map nbsp_to_space s = s.
Proof.
  induction s as [|c t IH]; simpl; intros H; [reflexivity|].
  rewrite IH by tauto. unfold nbsp_to_space.
  destruct (N.eqb_spec c NBSP) as [E|_]; [|reflexivity].
  exfalso. apply H. left. exact E.
Qed.

Lemma filter_bom_absent (s : str) :
  ~ In BOM s -> filter (fun c => negb (N.eqb c BOM)) s = s.
Proof.
  induction s as [|c t IH]; simpl; intros H; [reflexivity|].
  destruct (N.eqb_spec c BOM) as [E|_]; simpl.
  - exfalso. apply H. left. exact E.
  - rewrite IH by tauto. reflexivity.
Qed.

(** [norm_col] strips first or last, as one likes. *)
Lemma norm_col_strip_first (s : str) :
  ~ In BOM s ->
  Insolation.norm_col (Some s) = map nbsp_to_space (strip s).
Proof.
  intros H. unfold Insolation.norm_col.
  rewrite NormColFacts.replace_as_map, NormColFacts.replace_as_filter.
  rewrite filter_bom_absent by exact H.
  apply (strip_map nbsp_to_space nbsp_to_space_isspace).
Qed.

End HeaderFacts.

(** X7: the two scripts normalize a header cell alike unless it holds a
    byte order mark or an inner no-break space: for a cell without U+FEFF
    whose stripped form holds no U+00A0, [norm_col] of the insolation
    script and [str.strip] of the correlation script give the same name;
    so on a header of such cells both [robust_read_table] return the same
    labels.  (A no-break space at either end is white space for [strip]
    too.) *)
Theorem header_normalizations_agree :
  (forall s : str,
      ~ In BOM s -> ~ In NBSP (strip s) ->
      Insolation.norm_col (Some s) = strip s) /\
  (forall (PD : Pandas) (read_csv : Frame),
      (forall s, In s (columns read_csv) ->
                 ~ In BOM s /\ ~ In NBSP (strip s)) ->
      columns (Insolation.robust_read_table read_csv) =
      columns (Correlation.robust_read_table read_csv)).
Proof.
  assert (H1 : forall s : str,
             ~ In BOM s -> ~ In NBSP (strip s) ->
             Insolation.norm_col (Some s) = strip s).
  { intros s Hb Hn. rewrite HeaderFacts.norm_col_strip_first by exact Hb.
    apply HeaderFacts.map_nbsp_absent. exact Hn. }
  split; [exact H1|].
  intros PD read_csv H. simpl. apply map_ext_in.
  intros s Hs. destruct (H s Hs) as [Hb Hn]. apply H1; assumption.
Qed.

(** A name between blanks and no-break spaces is read alike by both
    scripts; behind a byte order mark only the insolation script finds
    it. *)
Lemma header_normalizations_agree_witness :
  Insolation.norm_col (Some (NBSP :: lit " OMEGA  ")) = lit "OMEGA" /\
  strip (NBSP :: lit " OMEGA  ") = lit "OMEGA" /\
  Insolation.norm_col (Some (BOM :: lit "Age")) = lit "Age" /\
  strip (BOM :: lit "Age") = BOM :: lit "Age".
Proof.
  split.
  - rewrite (proj1 header_normalizations_agree).
    + vm_compute. reflexivity.
    + vm_compute. intros H.
      repeat (destruct H as [H|H]; [discriminate H|]). exact H.
    + vm_compute. intros H.
      repeat (destruct H as [H|H]; [discriminate H|]). exact H.
  - vm_compute. repeat split; reflexivity.
Defined.

(** ** Reading the numeric columns *)

Module LookupFacts.

Lemma positions_from_spec (k : nat) (c : str) (cols : list str) (j : nat) :
  In j (positions_from k c cols) <->
  k <= j /\ nth_error cols (j - k) = Some c.
Proof.
  revert k. induction cols as [|c' rest IH]; intros k; simpl.
  - split; [tauto|]. intros [_ H]. destruct (j - k); discriminate.
  - assert (Hrec : In j (positions_from (S k) c rest) <->
                   k < j /\ nth_error rest (j - S k) = Some c).
    { rewrite IH. split; intros [? ?]; split; auto; lia. }
    destruct (Nat.lt_trichotomy j k) as [Hlt|[->|Hgt]].
    + destruct (PyStr.eqb c c'); simpl; rewrite ?Hrec; split;
        intros H; try lia; destruct H as [H|H]; try lia.
    + rewrite Nat.sub_diag. simpl.
      destruct (PyStr.eqb c c') eqn:E; simpl; rewrite ?Hrec.
      * apply PyStrFacts.eqb_eq in E. subst. split; auto.
      * split; [intros [? _]; lia|]. intros [_ [= ->]].
        rewrite PyStrFacts.eqb_refl in E. discriminate.
    + replace (j - k) with (S (j - S k)) by lia. simpl.
      destruct (PyStr.eqb c c'); simpl; rewrite ?Hrec; split.
      * intros [H|[_ H]]; [lia | split; [lia | exact H]].
      * intros [_ H]. right. split; [lia | exact H].
      * intros [_ H]. split; [lia | exact H].
      * intros [_ H]. split; [lia | exact H].
Qed.

(** The one column labelled [c]. *)
Lemma positions_single (c : str) (cols : list str) (j : nat) :
  positions c cols = [j] ->
  forall j', nth_error cols j' = Some c <-> j' = j.
Proof.
  intros H j'.
  pose proof (positions_from_spec 0 c cols j') as Hs.
  fold (positions c cols) in Hs. rewrite H, Nat.sub_0_r in Hs. simpl in Hs.
  split.
  - intros Hn. destruct (proj2 Hs (conj (Nat.le_0_l _) Hn)) as [E|[]].
    symmetry. exact E.
  - intros ->. apply Hs. left. reflexivity.
Qed.

Section Column.
Context {PD : Pandas}.

Lemma to_numeric_column_ok (df : Frame) (c : str) (col : list float) :
  to_numeric_column df c = ok col ->
  exists j,
    (forall j', nth_error (columns df) j' = Some c <-> j' = j) /\
    col = map (fun i => to_numeric (cell_at df i j)) (seq 0 (nrows df)).
Proof.
  unfold to_numeric_column.
  destruct (positions c (columns df)) as [|j [|j' js]] eqn:E;
    try discriminate.
  intros [= <-]. exists j. split; [|reflexivity].
  apply positions_single. exact E.
Qed.

Lemma nth_column (g : nat -> float) (n i : nat) :
  i < n -> nth i (map g (seq 0 n)) PrimFloat.nan = g i.
Proof.
  intros H. rewrite (nth_indep _ PrimFloat.nan (g 0))
    by (rewrite length_map, length_seq; exact H).
  rewrite map_nth, seq_nth by exact H. reflexivity.
Qed.

End Column.

End LookupFacts.

(** X8: when the numeric-conversion loop of either script ends normally,
    each of the five names labels exactly one column, the numeric table has
    one row per row of the loaded table, in the same order, and each value
    of a row is [to_numeric] of the cell of that row in the column that
    carries the name. *)
Theorem numeric_rows_read_named_columns :
  forall (PD : Pandas) (df : Frame) (c1 c2 c3 c4 c5 : str) (rows : list Row),
    to_numeric_rows df c1 c2 c3 c4 c5 = ok rows ->
    exists j1 j2 j3 j4 j5,
      (forall j, nth_error (columns df) j = Some c1 <-> j = j1) /\
      (forall j, nth_error (columns df) j = Some c2 <-> j = j2) /\
      (forall j, nth_error (columns df) j = Some c3 <-> j = j3) /\
      (forall j, nth_error (columns df) j = Some c4 <-> j = j4) /\
      (forall j, nth_error (columns df) j = Some c5 <-> j = j5) /\
      rows =
        map (fun i => mkRow (to_numeric (cell_at df i j1))
                            (to_numeric (cell_at df i j2))
                            (to_numeric (cell_at df i j3))
                            (to_numeric (cell_at df i j4))
                            (to_numeric (cell_at df i j5)))
            (seq 0 (nrows df)).
Proof.
  intros PD df c1 c2 c3 c4 c5 rows. unfold to_numeric_rows.
  destruct (to_numeric_column df c1) as [e|l1] eqn:E1; [discriminate|].
  destruct (to_numeric_column df c2) as [e|l2] eqn:E2; [discriminate|].
  destruct (to_numeric_column df c3) as [e|l3] eqn:E3; [discriminate|].
  destruct (to_numeric_column df c4) as [e|l4] eqn:E4; [discriminate|].
  destruct (to_numeric_column df c5) as [e|l5] eqn:E5; [discriminate|].
  simpl. intros [= <-].
  destruct (LookupFacts.to_numeric_column_ok df c1 l1 E1) as (j1 & H1 & ->).
  destruct (LookupFacts.to_numeric_column_ok df c2 l2 E2) as (j2 & H2 & ->).
  destruct (LookupFacts.to_numeric_column_ok df c3 l3 E3) as (j3 & H3 & ->).
  destruct (LookupFacts.to_numeric_column_ok df c4 l4 E4) as (j4 & H4 & ->).
  destruct (LookupFacts.to_numeric_column_ok df c5 l5 E5) as (j5 & H5 & ->).
  exists j1, j2, j3, j4, j5. repeat (split; [assumption|]).
  apply map_ext_in. intros i Hi. apply in_seq in Hi.
  rewrite !LookupFacts.nth_column by lia. reflexivity.
Qed.

(** On the sample table with its columns in another order the rows come
    out as on the sample table. *)
Lemma numeric_rows_read_named_columns_witness :
  exists rows,
    @to_numeric_rows pandas_reference
      (frame_of [lit "EXI"; lit "OBL"; lit "Age"; lit "OMEGA"; lit "ECC"]
                [[460; 23500; 150; 60; 0.0625];
                 [430; 22500; 130; 45; 0.03125]]%float)
      (lit "Age") (lit "ECC") (lit "OBL") (lit "OMEGA") (lit "EXI") = ok rows /\
    rows = [mkRow 150 0.0625 23500 60 460; mkRow 130 0.03125 22500 45 430]%float /\
    exists j1,
      forall j, nth_error [lit "EXI"; lit "OBL"; lit "Age"; lit "OMEGA"; lit "ECC"] j
                = Some (lit "Age") <-> j = j1.
Proof.
  eexists. split; [vm_compute; reflexivity|]. split; [reflexivity|].
  destruct (numeric_rows_read_named_columns pandas_reference
              (frame_of [lit "EXI"; lit "OBL"; lit "Age"; lit "OMEGA"; lit "ECC"]
                        [[460; 23500; 150; 60; 0.0625];
                         [430; 22500; 130; 45; 0.03125]]%float)
              (lit "Age") (lit "ECC") (lit "OBL") (lit "OMEGA") (lit "EXI")
              [mkRow 150 0.0625 23500 60 460; mkRow 130 0.03125 22500 45 430]%float)
    as (j1 & _ & _ & _ & _ & H1 & _); [vm_compute; reflexivity|].
  exists j1. exact H1.
Defined.

(** ** The sorted table does not depend on the sort *)

Module SortUnique.

Lemma filter_perm {A : Type} (f : A -> bool) (l1 l2 : list A) :
  Permutation l1 l2 -> Permutation (filter f l1) (filter f l2).
Proof.
  induction 1 as [|x l l' _ IH|x y l|l l' l'' _ IH1 _ IH2]; simpl.
  - apply perm_nil.
  - destruct (f x); [apply perm_skip|]; exact IH.
  - destruct (f x), (f y); try apply Permutation_refl. apply perm_swap.
  - eapply perm_trans; eassumption.
Qed.

Section Unique.
Context {A : Type} (key : A -> float).

Let R (a b : A) : Prop := PrimFloat.leb (key a) (key b) = true.

(** Two ascending arrangements of the same rows coincide when no two
    different rows have equal keys. *)
Lemma sorted_perm_unique (l1 l2 : list A) :
  Permutation l1 l2 ->
  StronglySorted R l1 -> StronglySorted R l2 ->
  (forall a b, In a l1 -> In b l1 ->
               PrimFloat.eqb (key a) (key b) = true -> a = b) ->
  l1 = l2.
Proof.
  revert l2. induction l1 as [|a t1 IH]; intros l2 Hp S1 S2 Hd.
  - apply Permutation_nil in Hp. symmetry. exact Hp.
  - destruct l2 as [|b t2];
      [apply Permutation_sym, Permutation_nil in Hp; discriminate|].
    inversion S1 as [|? ? S1' F1]; subst.
    inversion S2 as [|? ? S2' F2]; subst.
    assert (Hab : a = b).
    { assert (Ha : In a (b :: t2))
        by (apply (Permutation_in _ Hp); left; reflexivity).
      assert (Hb : In b (a :: t1))
        by (apply (Permutation_in _ (Permutation_sym Hp)); left; reflexivity).
      destruct Ha as [E|Ha]; [symmetry; exact E|].
      destruct Hb as [E|Hb]; [exact E|].
      rewrite Forall_forall in F1, F2.
      apply Hd; [left; reflexivity | right; exact Hb |].
      apply F64More.leb_antisym_eqb; [apply F1, Hb | apply F2, Ha]. }
    subst b. f_equal. apply IH.
    + apply (Permutation_cons_inv Hp).
    + exact S1'.
    + exact S2'.
    + intros x y Hx Hy. apply Hd; right; assumption.
Qed.

End Unique.

End SortUnique.

(** X9: when no two different rows have equal sort keys, the table does
    not depend on the order of the rows in the file, nor on how
    [sort_values] orders (any implementation that returns an ascending
    rearrangement gives the same table): for two row lists that are
    rearrangements of each other, [select] under any two sorts returns the
    same list.  The sort key of the correlation script is the row's [Age];
    that of the insolation script is the converted age [Age_yr_b2k], which
    line 82 computes as [Age * 1000.0 + 50] of the row.  Different ages in
    the file are not enough there: two different ages can convert to the
    same [Age_yr_b2k]. *)
Theorem table_independent_of_row_order :
  (forall (PD1 PD2 : Pandas) (rows1 rows2 : list Insolation.Aged),
      Permutation rows1 rows2 ->
      (forall a b, In a rows1 -> In b rows1 ->
                   (Insolation.Age_yr_b2k a =? Insolation.Age_yr_b2k b)%float
                   = true -> a = b) ->
      @Insolation.select PD1 rows1 = @Insolation.select PD2 rows2) /\
  (forall (PD1 PD2 : Pandas) (rows1 rows2 : list Row),
      Permutation rows1 rows2 ->
      (forall a b, In a rows1 -> In b rows1 ->
                   (Insolation.to_yr_b2k (Age a)
                    =? Insolation.to_yr_b2k (Age b))%float = true -> a = b) ->
      @Insolation.select PD1 (Insolation.add_age_yr_b2k rows1) =
      @Insolation.select PD2 (Insolation.add_age_yr_b2k rows2)) /\
  (forall (PD1 PD2 : Pandas) (rows1 rows2 : list Row),
      Permutation rows1 rows2 ->
      (forall a b, In a rows1 -> In b rows1 ->
                   (Age a =? Age b)%float = true -> a = b) ->
      @Correlation.select PD1 rows1 = @Correlation.select PD2 rows2) /\
  (exists a b : float,
      (a =? b)%float = false /\
      Insolation.to_yr_b2k a = Insolation.to_yr_b2k b /\
      Insolation.in_window (Insolation.to_yr_b2k a) = true).
Proof.
  assert (Haged : forall (PD1 PD2 : Pandas) (rows1 rows2 : list Insolation.Aged),
             Permutation rows1 rows2 ->
             (forall a b, In a rows1 -> In b rows1 ->
                          (Insolation.Age_yr_b2k a
                           =? Insolation.Age_yr_b2k b)%float = true ->
                          a = b) ->
             @Insolation.select PD1 rows1 = @Insolation.select PD2 rows2).
  { intros PD1 PD2 rows1 rows2 Hp Hd.
    apply (SortUnique.sorted_perm_unique Insolation.Age_yr_b2k).
    + unfold Insolation.select.
      eapply perm_trans; [apply (@sort_values_perm PD1)|].
      eapply perm_trans; [|apply Permutation_sym, (@sort_values_perm PD2)].
      unfold Insolation.dropna, Insolation.filter_window.
      apply SortUnique.filter_perm, SortUnique.filter_perm. exact Hp.
    + apply (@SelectFacts.select_ascending PD1).
    + apply (@SelectFacts.select_ascending PD2).
    + intros a b Ha Hb. apply (@SelectFacts.select_In PD1) in Ha.
      apply (@SelectFacts.select_In PD1) in Hb. apply Hd; tauto. }
  split; [exact Haged|]. split; [|split].
  - intros PD1 PD2 rows1 rows2 Hp Hd. apply Haged.
    + unfold Insolation.add_age_yr_b2k. apply Permutation_map. exact Hp.
    + intros a b Ha Hb. unfold Insolation.add_age_yr_b2k in Ha, Hb.
      apply in_map_iff in Ha. destruct Ha as (ra & <- & Ha).
      apply in_map_iff in Hb. destruct Hb as (rb & <- & Hb).
      simpl. intros E. rewrite (Hd ra rb Ha Hb E). reflexivity.
  - intros PD1 PD2 rows1 rows2 Hp Hd.
    apply (SortUnique.sorted_perm_unique Age).
    + unfold Correlation.select.
      eapply perm_trans; [apply (@sort_values_perm PD1)|].
      eapply perm_trans; [|apply Permutation_sym, (@sort_values_perm PD2)].
      unfold Correlation.filter_window. apply SortUnique.filter_perm. exact Hp.
    + apply (@SelectFacts.select_ascending_corr PD1).
    + apply (@SelectFacts.select_ascending_corr PD2).
    + intros a b Ha Hb. apply (@SelectFacts.select_In_corr PD1) in Ha.
      apply (@SelectFacts.select_In_corr PD1) in Hb. apply Hd; tauto.
  - exists 0x1.2c00000000015p+7%float, 0x1.2c00000000016p+7%float.
    repeat split; vm_compute; reflexivity.
Qed.

(** Three rows of distinct converted age, read forwards and backwards by
    the insolation script; three rows of distinct age, by the correlation
    script. *)
Lemma table_independent_of_row_order_witness :
  let rows := [mkRow 150 0.0625 23500 60 460;
               mkRow 130 0.03125 22500 45 430;
               mkRow 140 0.046875 24500 30 450]%float in
  @Insolation.select pandas_reference (Insolation.add_age_yr_b2k rows) =
  @Insolation.select pandas_reference (Insolation.add_age_yr_b2k (rev rows)) /\
  @Correlation.select pandas_reference rows =
  @Correlation.select pandas_reference (rev rows).
Proof.
  split.
  - apply (proj1 (proj2 table_independent_of_row_order)
             pandas_reference pandas_reference).
    + apply Permutation_rev.
    + intros a b Ha Hb.
      simpl in Ha, Hb.
      destruct Ha as [<-|[<-|[<-|[]]]]; destruct Hb as [<-|[<-|[<-|[]]]];
        vm_compute; intros H; try reflexivity; discriminate H.
  - apply (proj1 (proj2 (proj2 table_independent_of_row_order))
             pandas_reference pandas_reference).
    + apply Permutation_rev.
    + intros a b Ha Hb.
      simpl in Ha, Hb.
      destruct Ha as [<-|[<-|[<-|[]]]]; destruct Hb as [<-|[<-|[<-|[]]]];
        vm_compute; intros H; try reflexivity; discriminate H.
Defined.

(** ** The correlation script: figures and the first failing column *)

Module CorrelationMore.
Import Correlation CorrelationOutput CorrelationFacts TableFacts.

Section Loop.
Context {PD : Pandas}.

Lemma column_absent (df : Frame) (c : str) :
  occurrences c (columns df) = 0 ->
  to_numeric_column df c = raise (KeyError c).
Proof.
  intros H.
  destruct (to_numeric_column_cases df c) as [[_ E]|[[O _]|[O _]]];
    [exact E | lia | lia].
Qed.

Lemma column_repeated (df : Frame) (c : str) :
  2 <= occurrences c (columns df) ->
  to_numeric_column df c = raise TypeError_to_numeric.
Proof.
  intros H.
  destruct (to_numeric_column_cases df c) as [[O _]|[[O _]|[_ E]]];
    [lia | lia | exact E].
Qed.

Lemma column_once (df : Frame) (c : str) :
  occurrences c (columns df) = 1 ->
  exists col, to_numeric_column df c = ok col.
Proof.
  intros H.
  destruct (to_numeric_column_cases df c) as [[O _]|[[_ (col & E & _)]|[O _]]];
    [lia | eauto | lia].
Qed.

(** The loop stops at the first name that does not label exactly one
    column, with the exception of that lookup. *)
Lemma to_numeric_rows_first_failure (df : Frame) (c1 c2 c3 c4 c5 : str)
    (pre post : list str) (c : str) (e : exn) :
  [c1; c2; c3; c4; c5] = pre ++ c :: post ->
  (forall c', In c' pre -> occurrences c' (columns df) = 1) ->
  to_numeric_column df c = raise e ->
  to_numeric_rows df c1 c2 c3 c4 c5 = raise e.
Proof.
  intros Hsplit Hpre Hc. unfold to_numeric_rows.
  destruct pre as [|p1 [|p2 [|p3 [|p4 [|p5 pre]]]]]; simpl in Hsplit;
    inversion Hsplit; subst; clear Hsplit.
  - rewrite Hc. reflexivity.
  - destruct (column_once df p1) as (l1 & ->); [apply Hpre; simpl; auto|].
    ok_step. rewrite Hc. reflexivity.
  - destruct (column_once df p1) as (l1 & ->); [apply Hpre; simpl; auto|].
    destruct (column_once df p2) as (l2 & ->); [apply Hpre; simpl; auto|].
    ok_step. rewrite Hc. reflexivity.
  - destruct (column_once df p1) as (l1 & ->); [apply Hpre; simpl; auto|].
    destruct (column_once df p2) as (l2 & ->); [apply Hpre; simpl; auto|].
    destruct (column_once df p3) as (l3 & ->); [apply Hpre; simpl; auto|].
    ok_step. rewrite Hc. reflexivity.
  - destruct (column_once df p1) as (l1 & ->); [apply Hpre; simpl; auto|].
    destruct (column_once df p2) as (l2 & ->); [apply Hpre; simpl; auto|].
    destruct (column_once df p3) as (l3 & ->); [apply Hpre; simpl; auto|].
    destruct (column_once df p4) as (l4 & ->); [apply Hpre; simpl; auto 6|].
    ok_step. rewrite Hc. reflexivity.
  - match goal with H : [] = _ ++ _ :: _ |- _ =>
      destruct pre; discriminate H end.
Qed.

End Loop.

Section Main.
Context {NP : NumPy} {PD : Pandas}.

Lemma corr_derived_lengths (rows : list Row) (d : Derived) :
  derived_from rows d ->
  length (age_b2k d) = length (sub d) /\ length (ecc d) = length (sub d) /\
  length (insol d) = length (sub d) /\ length (obl d) = length (sub d) /\
  length (prec_index d) = length (sub d).
Proof.
  intros (_ & Ha & He & Hi & Ho & Hp).
  rewrite Hp, He, corr_precession_index_rows, Ha, Hi, Ho, scale_obl_length.
  rewrite !length_map. repeat split; reflexivity.
Qed.

End Main.

End CorrelationMore.

(** X10: the loop of line 101 stops at the first of Age, ECC, OBL, OMEGA,
    EXI that does not label exactly one column of the stripped header: if
    the names before it each label one column, the correlation script
    raises [KeyError] of that name when it labels none, and the [TypeError]
    of [to_numeric] when it labels several; nothing is written. *)
Theorem correlation_first_failing_column :
  forall (NP : NumPy) (PD : Pandas) (MP : Matplotlib) (read_csv : Frame)
         (pre post : list str) (c : str),
    CorrelationOutput.column_names = pre ++ c :: post ->
    (forall c', In c' pre ->
                occurrences c' (columns (Correlation.robust_read_table read_csv))
                = 1) ->
    (occurrences c (columns (Correlation.robust_read_table read_csv)) = 0 ->
     run (Correlation.main read_csv) = raise (KeyError c)) /\
    (2 <= occurrences c (columns (Correlation.robust_read_table read_csv)) ->
     run (Correlation.main read_csv) = raise TypeError_to_numeric).
Proof.
  intros NP PD MP read_csv pre post c Hsplit Hpre.
  assert (Hfail : forall e,
             to_numeric_column (Correlation.robust_read_table read_csv) c
             = raise e ->
             run (Correlation.main read_csv) = raise e).
  { intros e He. apply ExportFacts.corr_run_transform_raise.
    unfold Correlation.transform.
    rewrite (CorrelationMore.to_numeric_rows_first_failure
               _ _ _ _ _ _ pre post c e Hsplit Hpre He).
    reflexivity. }
  split; intros Ho; apply Hfail.
  - apply CorrelationMore.column_absent. exact Ho.
  - apply CorrelationMore.column_repeated. exact Ho.
Qed.

(** Without the eccentricity and obliquity columns the lookup of [ECC]
    fails first. *)
Lemma correlation_first_failing_column_witness :
  run (@Correlation.main numpy_reference pandas_reference
         matplotlib_reference Sample.short_table)
  = raise (KeyError (lit "ECC")).
Proof.
  apply (correlation_first_failing_column numpy_reference pandas_reference
           matplotlib_reference
           Sample.short_table [lit "Age"] [lit "OBL"; lit "OMEGA"; lit "EXI"]
           (lit "ECC")).
  - reflexivity.
  - intros c' [<-|[]]. vm_compute. reflexivity.
  - vm_compute. reflexivity.
Defined.

(** X11: every figure a normal run of the correlation script saves holds
    one scatter layer with one point per row of the filtered table; the
    three figures share the insolation as y data and the b2k age
    ([Age + SHIFT_KA] of the row) as colour data, and have the
    eccentricity, the scaled obliquity and the precession index as x data;
    rows with a NaN in one of these columns are still there, since this
    script drops none. *)
Theorem correlation_figures :
  forall (NP : NumPy) (PD : Pandas) (MP : Matplotlib) (read_csv : Frame)
         (d : Correlation.Derived) (files : Files),
    run (Correlation.main read_csv) = ok (d, files) ->
    let rows := Correlation.sub d in
    let fig x := mkFigure [] [mkLayer [] x (map EXI rows)
                                (map (fun r => (Age r + Correlation.SHIFT_KA)%float)
                                     rows)] in
    map file_figure files =
      [ fig (map ECC rows); fig (map ECC rows);
        fig (scale_obl (map OBL rows)); fig (scale_obl (map OBL rows));
        fig (map (fun r => (ECC r * np_sin (np_deg2rad (OMEGA r)))%float) rows);
        fig (map (fun r => (ECC r * np_sin (np_deg2rad (OMEGA r)))%float) rows) ] /\
    length (scale_obl (map OBL rows)) = length rows /\
    exists numeric,
      to_numeric_rows (Correlation.robust_read_table read_csv)
        Correlation.col_age_bp Correlation.col_ecc Correlation.col_obl
        Correlation.col_omega Correlation.col_insol = ok numeric /\
      Permutation rows (Correlation.filter_window numeric).
Proof.
  intros NP PD MP read_csv d files Hrun rows fig.
  destruct (OutputFacts.corr_run_ok_inv read_csv d files Hrun) as (Ht & Er).
  destruct (RenderFacts.rendered_spec _ _ Er) as (_ & Hf & _).
  destruct (CorrelationFacts.corr_transform_cases read_csv)
    as [(c & _ & _ & E)|[(c & _ & _ & E)|(_ & numeric & d' & Hn & _ & E & Hd)]];
    rewrite E in Ht; try discriminate Ht.
  unfold ok in Ht. injection Ht as ->.
  destruct Hd as (Hs & Ha & He & Hi & Ho & Hp).
  split; [|split].
  - rewrite Hf.
    unfold CorrelationOutput.figures_of, CorrelationOutput.figure_of. simpl.
    rewrite Hp, He, CorrelationFacts.corr_precession_index_rows, Ha, Hi, Ho.
    reflexivity.
  - rewrite TableFacts.scale_obl_length. apply length_map.
  - exists numeric. split; [exact Hn|].
    subst rows. rewrite Hs. unfold Correlation.select.
    apply sort_values_perm.
Qed.

(** On the sample table the row without eccentricity is plotted too: nine
    rows are in the window and each figure has nine points. *)
Lemma correlation_figures_witness :
  exists d files,
    run (@Correlation.main numpy_reference pandas_reference
           matplotlib_reference Sample.table)
    = ok (d, files) /\
    length (Correlation.sub d) = 9 /\
    length (scale_obl (map OBL (Correlation.sub d))) = length (Correlation.sub d).
Proof.
  eassert (H : run (@Correlation.main numpy_reference pandas_reference
                      matplotlib_reference Sample.table) = ok (_, _))
    by (vm_compute; reflexivity).
  eexists. eexists. split; [exact H|].
  split; [reflexivity|].
  exact (proj1 (proj2 (correlation_figures numpy_reference pandas_reference
                         matplotlib_reference Sample.table _ _ H))).
Defined.

(** ** Flat and monotone stretches *)

Module StrictFacts.

Lemma leb_not_gt (a b : float) :
  PrimFloat.leb a b = true -> PrimFloat.ltb b a = false.
Proof.
  rewrite leb_spec, ltb_spec. unfold SFleb, SFltb.
  destruct (SFcompare (Prim2SF a) (Prim2SF b)) as [c|] eqn:E; [|discriminate].
  rewrite (F64Facts.SFcompare_antisym _ _ _ E).
  destruct c; simpl; congruence.
Qed.

Lemma eqb_leb (a b : float) :
  PrimFloat.eqb a b = true ->
  PrimFloat.leb a b = true /\ PrimFloat.leb b a = true.
Proof.
  rewrite eqb_spec, !leb_spec. unfold SFeqb, SFleb.
  destruct (SFcompare (Prim2SF a) (Prim2SF b)) as [c|] eqn:E; [|discriminate].
  rewrite (F64Facts.SFcompare_antisym _ _ _ E).
  destruct c; simpl; try discriminate. auto.
Qed.

(** No extremum where the next value is not strictly on the right side. *)
Lemma not_beaten (cmp : float -> float -> bool) (series : list float)
    (order i j : nat) :
  1 <= order -> j < length series -> (j = S i \/ i = S j) ->
  cmp (nth i series PrimFloat.nan) (nth j series PrimFloat.nan) = false ->
  ~ beats_neighbours cmp series order i.
Proof.
  intros Ho Hj Hadj Hc [_ Hb].
  rewrite Hb in Hc; [discriminate | exact Hj |].
  unfold neighbour. lia.
Qed.

End StrictFacts.

(** X12: a flat stretch is not marked: where two adjacent values are equal,
    neither of the two positions is returned, as a maximum or as a
    minimum. *)
Theorem plateau_has_no_extremum :
  forall (series : list float) (order : Z) (max_idx min_idx : list nat)
         (i : nat),
    (1 <= order)%Z ->
    get_extrema_idx series order = ok (max_idx, min_idx) ->
    S i < length series ->
    (nth i series PrimFloat.nan =? nth (S i) series PrimFloat.nan)%float = true ->
    ~ In i max_idx /\ ~ In i min_idx /\
    ~ In (S i) max_idx /\ ~ In (S i) min_idx.
Proof.
  intros series order max_idx min_idx i Ho E Hi Heq.
  destruct (ExtremaMore.get_extrema_idx_In_Z series order max_idx min_idx Ho E)
    as [Hmx Hmn].
  destruct (StrictFacts.eqb_leb _ _ Heq) as [H1 H2].
  assert (Ho' : 1 <= Z.to_nat order) by lia.
  repeat split; intros Hin;
    [apply Hmx in Hin | apply Hmn in Hin | apply Hmx in Hin | apply Hmn in Hin];
    destruct Hin as [_ Hb]; revert Hb.
  - apply (StrictFacts.not_beaten F64.gt series _ i (S i) Ho'); [lia | auto |].
    unfold F64.gt. apply StrictFacts.leb_not_gt. exact H1.
  - apply (StrictFacts.not_beaten F64.lt series _ i (S i) Ho'); [lia | auto |].
    unfold F64.lt. apply StrictFacts.leb_not_gt. exact H2.
  - apply (StrictFacts.not_beaten F64.gt series _ (S i) i Ho'); [lia | auto |].
    unfold F64.gt. apply StrictFacts.leb_not_gt. exact H2.
  - apply (StrictFacts.not_beaten F64.lt series _ (S i) i Ho'); [lia | auto |].
    unfold F64.lt. apply StrictFacts.leb_not_gt. exact H1.
Qed.

(** A peak with a flat top of two values: nothing is returned. *)
Lemma plateau_has_no_extremum_witness :
  let series := [1; 2; 5; 5; 2; 1]%float in
  get_extrema_idx series 3 = ok ([], []) /\
  ~ In 2 (@nil nat) /\ ~ In 2 (@nil nat) /\
  ~ In 3 (@nil nat) /\ ~ In 3 (@nil nat).
Proof.
  split; [vm_compute; reflexivity|].
  apply (plateau_has_no_extremum [1; 2; 5; 5; 2; 1]%float 3 [] [] 2);
    [lia | vm_compute; reflexivity | simpl; lia | vm_compute; reflexivity].
Defined.

(** X13: a series that never falls, or never rises, has no extremum at
    all: [get_extrema_idx] returns two empty lists, so the figure gets no
    marker for that parameter. *)
Theorem monotone_series_has_no_extremum :
  forall (series : list float) (order : Z) (max_idx min_idx : list nat),
    (1 <= order)%Z ->
    get_extrema_idx series order = ok (max_idx, min_idx) ->
    (forall i, S i < length series ->
               (nth i series PrimFloat.nan <=? nth (S i) series PrimFloat.nan)%float
               = true) \/
    (forall i, S i < length series ->
               (nth (S i) series PrimFloat.nan <=? nth i series PrimFloat.nan)%float
               = true) ->
    max_idx = [] /\ min_idx = [].
Proof.
  intros series order max_idx min_idx Ho E Hmono.
  destruct (ExtremaMore.get_extrema_idx_In_Z series order max_idx min_idx Ho E)
    as [Hmx Hmn].
  assert (Ho' : 1 <= Z.to_nat order) by lia.
  split; apply ExtremaMore.no_elements; intros i Hin;
    [apply Hmx in Hin | apply Hmn in Hin];
    destruct Hin as [[H0 H1] Hb]; revert Hb;
    destruct i as [|k]; try lia; destruct Hmono as [Hup|Hdown].
  - apply (StrictFacts.not_beaten F64.gt series _ (S k) (S (S k)) Ho');
      [exact H1 | auto |].
    unfold F64.gt. apply StrictFacts.leb_not_gt, Hup. exact H1.
  - apply (StrictFacts.not_beaten F64.gt series _ (S k) k Ho'); [lia | auto |].
    unfold F64.gt. apply StrictFacts.leb_not_gt, Hdown. lia.
  - apply (StrictFacts.not_beaten F64.lt series _ (S k) k Ho'); [lia | auto |].
    unfold F64.lt. apply StrictFacts.leb_not_gt, Hup. lia.
  - apply (StrictFacts.not_beaten F64.lt series _ (S k) (S (S k)) Ho');
      [exact H1 | auto |].
    unfold F64.lt. apply StrictFacts.leb_not_gt, Hdown. exact H1.
Qed.

Lemma monotone_series_has_no_extremum_witness :
  @nil nat = [] /\ @nil nat = [] /\
  get_extrema_idx Sample.falling 3 = ok ([], []).
Proof.
  assert (E : get_extrema_idx Sample.falling 3 = ok ([], []))
    by (vm_compute; reflexivity).
  destruct (monotone_series_has_no_extremum Sample.falling 3 [] [])
    as [H1 H2]; [lia | exact E | | auto].
  right. intros i Hi.
  destruct i as [|[|[|[|i]]]]; try (vm_compute; reflexivity).
  simpl in Hi. lia.
Defined.
